(** * lechdo/sandbox: the configuration singleton and the periodic scheduler

    A shallow embedding of [config_tools.py], [scheduler.py] and
    [logger.py], followed by the properties of their specification and by
    further properties of the code.

    Conventions of the embedding.
    - A Python [str] is a [string] holding one code point below 256 per
      character; the accented letters of the source's messages are written
      with their code (["233"%char] is e-acute).
    - A Python [dict] is an association list in insertion order; its keys
      are values of any kind.  The keywords a call receives, the local
      variables of a call and the [__dict__] of an instance have names for
      keys: they are association lists with string keys.
    - Exceptions are values: a computation returns [Ok v] or [Raise e].
    - The process state (the class attribute [Singleton._instances] and the
      instances themselves) is passed explicitly; instances live in a heap
      and are named by their location, so that identity ([is]) is equality
      of locations.
    - Messages of the interpreter's own [TypeError]s are those of
      CPython 3.11.
    - [time.sleep] belongs to the platform: which durations the operating
      system refuses is a parameter of the model. *)

From Stdlib Require Import ZArith String Ascii List Bool Lia DecimalString.
From stdpp Require Import gmap strings list.
Import ListNotations.

Set Warnings "-register-all".
Local Open Scope Z_scope.

(** ** Python values and [repr] *)

Module Py.

(** The values a configuration document holds, and the nested records
    ([SubConfig] instances) a constructor builds from them.  Floats are
    left out.  A record is given by the name of its class and its fields:
    two records with the same fields are the same value, although Python
    makes a new object at each call of the class. *)
Inductive value : Type :=
| VNone
| VBool (b : bool)
| VInt (z : Z)
| VStr (s : string)
| VList (l : list value)
| VDict (d : list (value * value))
| VObj (cname : string) (attrs : list (string * value)).

(** A dictionary whose keys are names: keywords, local variables, the
    [__dict__] of an instance. *)
Definition dict : Type := list (string * value).

(** The keywords [**m] passes for a dictionary [m], when every key of [m]
    is a string. *)
Fixpoint keywords (m : list (value * value)) : option dict :=
  match m with
  | [] => Some []
  | (VStr k, v) :: m' =>
      match keywords m' with
      | Some d => Some ((k, v) :: d)
      | None => None
      end
  | _ :: _ => None
  end.

Definition kwargs (v : value) : option dict :=
  match v with
  | VDict m => keywords m
  | _ => None
  end.

(** The dictionary [{k1: v1, ...}] whose keys are the strings [k1], ... *)
Definition dictv (d : dict) : value :=
  VDict (map (fun kv => (VStr (fst kv), snd kv)) d).

(** [type(v).__name__] *)
Definition type_name (v : value) : string :=
  match v with
  | VNone => "NoneType"
  | VBool _ => "bool"
  | VInt _ => "int"
  | VStr _ => "str"
  | VList _ => "list"
  | VDict _ => "dict"
  | VObj c _ => c
  end.

(** [d[k]] as a lookup, first binding first. *)
Fixpoint get {A : Type} (k : string) (d : list (string * A)) : option A :=
  match d with
  | [] => None
  | (k', v) :: d' => if String.eqb k k' then Some v else get k d'
  end.

Definition keys {A : Type} (d : list (string * A)) : list string := map fst d.

Definition mem (k : string) (l : list string) : bool :=
  existsb (String.eqb k) l.

(** [d[k] = v]: an existing key keeps its place, a new one goes last. *)
Fixpoint set (k : string) (v : value) (d : dict) : dict :=
  match d with
  | [] => [(k, v)]
  | (k', v') :: d' =>
      if String.eqb k k' then (k, v) :: d' else (k', v') :: set k v d'
  end.

(** *** [repr] of a string *)

Definition hex_digit (n : N) : ascii :=
  match n with
  | 0%N => "0" | 1%N => "1" | 2%N => "2" | 3%N => "3" | 4%N => "4"
  | 5%N => "5" | 6%N => "6" | 7%N => "7" | 8%N => "8" | 9%N => "9"
  | 10%N => "a" | 11%N => "b" | 12%N => "c" | 13%N => "d" | 14%N => "e"
  | _ => "f"
  end%char.

Definition backslash : ascii := "092"%char.
Definition squote : ascii := "039"%char.
Definition dquote : ascii := "034"%char.

Definition hex_escape (c : ascii) : string :=
  let n := N_of_ascii c in
  String backslash
    (String "x" (String (hex_digit (n / 16)) (String (hex_digit (n mod 16)) EmptyString))).

(** Code points below 256 that [str.isprintable] rejects: the controls,
    DEL, 0x80..0xa0 and the soft hyphen 0xad. *)
Definition printable (c : ascii) : bool :=
  let n := N_of_ascii c in
  ((32 <=? n) && (n <? 127) || (161 <=? n) && negb (n =? 173))%N.

Definition escape_char (quote c : ascii) : string :=
  if Ascii.eqb c quote || Ascii.eqb c backslash then String backslash (String c EmptyString)
  else if Ascii.eqb c "009" then String backslash "t"
  else if Ascii.eqb c "010" then String backslash "n"
  else if Ascii.eqb c "013" then String backslash "r"
  else if printable c then String c EmptyString
  else hex_escape c.

Fixpoint has_char (c : ascii) (s : string) : bool :=
  match s with
  | EmptyString => false
  | String c' s' => Ascii.eqb c c' || has_char c s'
  end.

Fixpoint escape (quote : ascii) (s : string) : string :=
  match s with
  | EmptyString => EmptyString
  | String c s' => escape_char quote c +:+ escape quote s'
  end.

(** Single quotes, unless the string has a single quote and no double one. *)
Definition repr_str (s : string) : string :=
  let quote := if has_char squote s && negb (has_char dquote s) then dquote else squote in
  String quote (escape quote s +:+ String quote EmptyString).

Definition repr_int (z : Z) : string := NilZero.string_of_int (Z.to_int z).

(** [', '.join(l)] *)
Definition join (sep : string) (l : list string) : string := String.concat sep l.

(** *** [repr] of a value.  The last case is
    [_ReprConfigurationMixin.__repr__], which [SubConfig] inherits. *)
Fixpoint repr (v : value) : string :=
  match v with
  | VNone => "None"
  | VBool true => "True"
  | VBool false => "False"
  | VInt z => repr_int z
  | VStr s => repr_str s
  | VList l => "[" +:+ join ", " (map repr l) +:+ "]"
  | VDict d =>
      "{" +:+ join ", " (map (fun kv => repr (fst kv) +:+ ": " +:+ repr (snd kv)) d) +:+ "}"
  | VObj c a =>
      c +:+ "(" +:+ join ", " (map (fun kv => fst kv +:+ "=" +:+ repr (snd kv)) a) +:+ ")"
  end.

(** [needle in s] *)
Fixpoint contains (needle s : string) : bool :=
  String.prefix needle s ||
  match s with
  | EmptyString => false
  | String _ s' => contains needle s'
  end.

End Py.

Import Py.

(** ** [config_tools.py] *)

Module ConfigTools.

(** *** Exceptions *)

Inductive exn_class : Type :=
| ConfigFileParamError
| AssertionError
| TypeError
| NameError
| OtherError (name : string).

Definition class_name (c : exn_class) : string :=
  match c with
  | ConfigFileParamError => "ConfigFileParamError"
  | AssertionError => "AssertionError"
  | TypeError => "TypeError"
  | NameError => "NameError"
  | OtherError n => n
  end.

Record exn : Type := Exn { e_class : exn_class; e_msg : string }.

Inductive result (A : Type) : Type :=
| Ok (a : A)
| Raise (e : exn).
Arguments Ok {A} a.
Arguments Raise {A} e.

(** *** Concrete configuration types

    The concrete types are declared by the host program; the module's
    docstring shows their shape.  A class is the class object (named by a
    number, as [id(cls)] names it: executing a [class] statement again
    gives another object with the same module and name), its module and
    name, the parameters of [__init__] after [self] (plain named
    parameters, each with its default, if it has one), and the body of
    [__init__]: a sequence of [self.attr = p] and [self.attr = Sub( **p)],
    where [Sub] is a [SubConfig] subclass.  Constructors that load another
    configuration singleton ([self.attr = Other.load_from_dict(p)], the
    last example of the docstring) are not among them. *)

Inductive klass : Type :=
| Klass (ident : nat) (module name : string) (params : list (string * option value))
        (body : list (string * expr))
with expr : Type :=
| EParam (p : string)
| ENew (k : klass) (p : string).

Definition k_ident (k : klass) : nat := let 'Klass i _ _ _ _ := k in i.
Definition k_module (k : klass) : string := let 'Klass _ m _ _ _ := k in m.
Definition k_name (k : klass) : string := let 'Klass _ _ n _ _ := k in n.
Definition k_params (k : klass) : list (string * option value) :=
  let 'Klass _ _ _ ps _ := k in ps.
Definition k_body (k : klass) : list (string * expr) := let 'Klass _ _ _ _ b := k in b.

(** A class object as a key of [Singleton._instances] and as the
    [__class__] of an instance: the object itself, with the module and
    the name it carries. *)
Abbreviation cls_id := (nat * string * string)%type (only parsing).
Definition cid (k : klass) : cls_id := (k_ident k, k_module k, k_name k).

(** *** Binding keyword arguments to a signature *)

Definition type_error (msg : string) : exn := Exn TypeError msg.

Definition required (params : list (string * option value)) : list string :=
  keys (List.filter (fun p => match snd p with None => true | Some _ => false end) params).

(** Required parameters that the call leaves without a value. *)
Definition missing (params : list (string * option value)) (kwargs : dict) : list string :=
  List.filter (fun p => negb (mem p (keys kwargs))) (required params).

(** The first keyword, in the order of the mapping, that no parameter
    takes: [self] already has its value, any other name is unknown. *)
Fixpoint first_bad_keyword (names : list string) (kwargs : dict) : option string :=
  match kwargs with
  | [] => None
  | (k, _) :: rest =>
      if String.eqb k "self" then Some k
      else if mem k names then first_bad_keyword names rest
      else Some k
  end.

(** A name between single quotes.  Parameter names are identifiers, and
    the [repr] of an identifier is just that. *)
Definition quoted (name : string) : string := "'" +:+ name +:+ "'".

Definition bad_keyword_error (fname k : string) : exn :=
  if String.eqb k "self"
  then type_error (fname +:+ "() got multiple values for argument 'self'")
  else type_error (fname +:+ "() got an unexpected keyword argument " +:+ quoted k).

Fixpoint and_last (names : list string) : string :=
  match names with
  | [] => ""
  | [c] => "and " +:+ quoted c
  | a :: rest => quoted a +:+ ", " +:+ and_last rest
  end.

Definition format_missing (names : list string) : string :=
  match names with
  | [a] => quoted a
  | [a; b] => quoted a +:+ " and " +:+ quoted b
  | _ => and_last names
  end.

Definition missing_error (fname : string) (names : list string) : exn :=
  type_error (fname +:+ "() missing " +:+ repr_int (Z.of_nat (length names))
              +:+ " required positional argument"
              +:+ (if (length names =? 1)%nat then "" else "s") +:+ ": "
              +:+ format_missing names).

(** The value each parameter gets: the keyword's, else the default. *)
Definition bound (params : list (string * option value)) (kwargs : dict) : dict :=
  map (fun p =>
         (fst p, match get (fst p) kwargs with
                 | Some v => v
                 | None => match snd p with Some d => d | None => VNone end
                 end)) params.

(** A call passing [self] and the keywords [**kwargs] to
    [def f(self, p1, ..., pn=dn)]: the local
    variables of the call, or the [TypeError] of the interpreter. *)
Definition bind_args (fname : string) (params : list (string * option value))
    (kwargs : dict) : result dict :=
  match first_bad_keyword (keys params) kwargs with
  | Some k => Raise (bad_keyword_error fname k)
  | None =>
      match missing params kwargs with
      | [] => Ok (bound params kwargs)
      | names => Raise (missing_error fname names)
      end
  end.

(** *** Running a constructor *)

Definition name_error (p : string) : exn :=
  Exn NameError ("name '" +:+ p +:+ "' is not defined").

(** [f( **v)] at the place of the call: what is not a mapping is
    refused with the name of the callee, and so is a dictionary with a key
    that is not a string, before anything of the callee runs; otherwise the
    callee receives the keywords. *)
Definition not_a_mapping_error (fname : string) (v : value) : exn :=
  type_error (fname +:+ "() argument after ** must be a mapping, not " +:+ type_name v).

Definition keywords_error : exn := type_error "keywords must be strings".

Definition unpack (fname : string) (v : value) : result dict :=
  match v with
  | VDict m =>
      match keywords m with
      | Some kw => Ok kw
      | None => Raise keywords_error
      end
  | _ => Raise (not_a_mapping_error fname v)
  end.

(** The name a call of the class goes by in those messages. *)
Definition call_name (k : klass) : string := k_module k +:+ "." +:+ k_name k.

Definition not_a_mapping (k : klass) (v : value) : exn :=
  not_a_mapping_error (call_name k) v.

Definition init_name (k : klass) : string := k_name k +:+ ".__init__".

(** [k( **kwargs)] for a [SubConfig] subclass [k]: a fresh record. *)
Fixpoint new (k : klass) (kwargs : dict) : result value :=
  match k with
  | Klass _ _ name params body =>
      match bind_args (name +:+ ".__init__") params kwargs with
      | Raise e => Raise e
      | Ok env =>
          (fix exec (b : list (string * expr)) (d : dict) : result value :=
             match b with
             | [] => Ok (VObj name d)
             | (a, e) :: b' =>
                 match
                   match e with
                   | EParam p =>
                       match get p env with
                       | Some v => Ok v
                       | None => Raise (name_error p)
                       end
                   | ENew k' p =>
                       match get p env with
                       | Some v =>
                           match unpack (call_name k') v with
                           | Ok kw => new k' kw
                           | Raise x => Raise x
                           end
                       | None => Raise (name_error p)
                       end
                   end
                 with
                 | Ok v => exec b' (set a v d)
                 | Raise x => Raise x
                 end
             end) body []
      end
  end.

(** The right-hand side of an assignment of the body. *)
Definition eval (env : dict) (e : expr) : result value :=
  match e with
  | EParam p =>
      match get p env with
      | Some v => Ok v
      | None => Raise (name_error p)
      end
  | ENew k' p =>
      match get p env with
      | Some v =>
          match unpack (call_name k') v with
          | Ok kw => new k' kw
          | Raise x => Raise x
          end
      | None => Raise (name_error p)
      end
  end.

(** The body of [__init__] on the [__dict__] of [self]: the dictionary it
    leaves, and the exception that stopped it, if one did. *)
Fixpoint exec_body (env : dict) (b : list (string * expr)) (d : dict) : dict * option exn :=
  match b with
  | [] => (d, None)
  | (a, e) :: b' =>
      match eval env e with
      | Ok v => exec_body env b' (set a v d)
      | Raise x => (d, Some x)
      end
  end.

(** *** The process state *)

Abbreviation loc := nat (only parsing).

(** An instance: its class and its [__dict__]. *)
Record obj : Type := Obj { o_class : cls_id; o_dict : dict }.

(** What the program does besides computing, in order: opening and
    deserializing a file, and entering the body of a constructor. *)
Inductive event : Type :=
| EvLoad (path : string)
| EvInit (c : cls_id).

Record state : Type := State {
  heap : list obj;
  instances : gmap cls_id loc;   (* Singleton._instances *)
  trace : list event
}.

Definition initial : state := State [] ∅ [].

Definition M (A : Type) : Type := state -> result A * state.

(** [_ReprConfigurationMixin.__repr__] on an instance. *)
Definition obj_repr (o : obj) : string := repr (VObj (snd (o_class o)) (o_dict o)).

(** [self.__init__( **kwargs)] on the instance at [l], for [k = type(self)].
    A location outside the heap does not name an instance; the case is
    closed with an error of the model's own. *)
Definition init (k : klass) (l : loc) (kwargs : dict) : M unit := fun s =>
  match bind_args (init_name k) (k_params k) kwargs with
  | Raise e => (Raise e, s)
  | Ok env =>
      match heap s !! l with
      | None => (Raise (Exn (OtherError "ReferenceError") "no such instance"), s)
      | Some o =>
          let '(d, r) := exec_body env (k_body k) (o_dict o) in
          let s' := State (<[l := Obj (o_class o) d]> (heap s)) (instances s)
                          (trace s ++ [EvInit (cid k)]) in
          (match r with None => Ok tt | Some e => Raise e end, s')
      end
  end.

(** [type.__call__(cls, **kwargs)]: a new instance, then [__init__] on it.
    When [__init__] raises, nothing refers to the new instance and it is
    freed. *)
Definition type_call (k : klass) (kwargs : dict) : M loc := fun s =>
  let l := length (heap s) in
  let s0 := State (heap s ++ [Obj (cid k) []]) (instances s) (trace s) in
  match init k l kwargs s0 with
  | (Ok _, s1) => (Ok l, s1)
  | (Raise e, s1) => (Raise e, State (take l (heap s1)) (instances s1) (trace s1))
  end.

Definition cls_clash : string :=
  "Singleton.__call__() got multiple values for argument 'cls'".

(** [Singleton.__call__(cls, *args, **kwargs)], as [cls( **kwargs)] reaches
    it.  Its own first parameter is named [cls], so a keyword of that name
    cannot be passed through. *)
Definition Singleton_call (k : klass) (kwargs : dict) : M loc := fun s =>
  if mem "cls" (keys kwargs)
  then (Raise (type_error cls_clash), s)
  else
    match instances s !! cid k with
    | Some l => (Ok l, s)
    | None =>
        match type_call k kwargs s with
        | (Ok l, s1) => (Ok l, State (heap s1) (<[cid k := l]> (instances s1)) (trace s1))
        | (Raise e, s1) => (Raise e, s1)
        end
    end.

Definition not_loaded_msg : string :=
  "L'instance a " +:+ String "233" ("t" +:+ String "233" (" appel" +:+ String "233"
  ("e sans avoir charg" +:+ String "233" (" les donn" +:+ String "233" "es")))).

(** [Singleton.instance(cls)] *)
Definition instance (k : klass) : M loc := fun s =>
  match instances s !! cid k with
  | Some l => (Ok l, s)
  | None => (Raise (Exn ConfigFileParamError not_loaded_msg), s)
  end.

(** [_type_error_response(origin, e)]: the exception it raises. *)
Definition _type_error_response (origin e : string) : exn :=
  Exn ConfigFileParamError
      ("le param" +:+ String "232" ("tre " +:+ e
       +:+ " est manquant ou superflu dans la configuration fournie (" +:+ origin +:+ ").")).

(** [try: m  except TypeError as e: _type_error_response(origin, e)] *)
Definition try_except_TypeError {A : Type} (origin : string) (m : M A) : M A := fun s =>
  match m s with
  | (Raise (Exn TypeError msg), s') => (Raise (_type_error_response origin msg), s')
  | r => r
  end.


Definition assert_msg (yaml_file : string) : string :=
  "le path " +:+ yaml_file +:+ " sp" +:+ String "233" ("cifi" +:+ String "233"
  " ne renvoie pas vers un fichier").

Section Files.

(** The file system and the YAML loader: [isfile], and [open] followed by
    [load(file, Loader=Loader)], whose exceptions are not caught. *)
Variable isfile : string -> bool.
Variable open_load : string -> result value.

(** [cls( **content)] *)
Definition call_with (k : klass) (content : value) : M loc := fun s =>
  match unpack (call_name k) content with
  | Ok kw => Singleton_call k kw s
  | Raise e => (Raise e, s)
  end.

(** [ConfigSuperClass.from_file(cls, yaml_file)] *)
Definition from_file (k : klass) (yaml_file : string) : M loc := fun s =>
  if negb (isfile yaml_file)
  then (Raise (Exn AssertionError (assert_msg yaml_file)), s)
  else
    let s1 := State (heap s) (instances s) (trace s ++ [EvLoad yaml_file]) in
    match open_load yaml_file with
    | Raise e => (Raise e, s1)
    | Ok content => try_except_TypeError yaml_file (call_with k content) s1
    end.

(** [ConfigSuperClass.load_from_dict(cls, _dict)] *)
Definition load_from_dict (k : klass) (_dict : value) : M loc :=
  try_except_TypeError "dict variable" (call_with k _dict).

(** [self.__init__( **content)] *)
Definition init_with (k : klass) (l : loc) (content : value) : M unit := fun s =>
  match unpack (k_module k +:+ "." +:+ init_name k) content with
  | Ok kw => init k l kw s
  | Raise e => (Raise e, s)
  end.

(** [ConfigSuperClass.reload_from_file(self, yaml_file)], [self] at [l]. *)
Definition reload_from_file (k : klass) (l : loc) (yaml_file : string) : M unit := fun s =>
  if negb (isfile yaml_file)
  then (Raise (Exn AssertionError (assert_msg yaml_file)), s)
  else
    let s1 := State (heap s) (instances s) (trace s ++ [EvLoad yaml_file]) in
    match open_load yaml_file with
    | Raise e => (Raise e, s1)
    | Ok content => try_except_TypeError yaml_file (init_with k l content) s1
    end.

(** [ConfigSuperClass.reload_from_dict(self, _dict)], [self] at [l]. *)
Definition reload_from_dict (k : klass) (l : loc) (_dict : value) : M unit :=
  try_except_TypeError "dict variable" (init_with k l _dict).

End Files.

(** What a caught exception becomes. *)
Definition translated (origin : string) (e : exn) : exn :=
  match e with
  | Exn TypeError msg => _type_error_response origin msg
  | _ => e
  end.

(** *** What a mapping must look like *)

(** Every required parameter has a key, and every key is a parameter. *)
Definition matches (params : list (string * option value)) (kwargs : dict) : bool :=
  forallb (fun p => mem p (keys kwargs)) (required params)
  && forallb (fun k => mem k (keys params)) (keys kwargs).

(** A class as Python accepts it: [self] is not declared twice, and the
    body reads declared parameters only; so for the classes it builds. *)
Fixpoint well_formed (k : klass) : bool :=
  match k with
  | Klass _ _ _ params body =>
      negb (mem "self" (keys params))
      && forallb (fun ae =>
                    match snd ae with
                    | EParam p => mem p (keys params)
                    | ENew k' p => mem p (keys params) && well_formed k'
                    end) body
  end.

(** The keywords have the structure of the class, nested classes
    included: they match the parameters, and each parameter that feeds a
    nested class holds a dictionary with string keys that has the
    structure of that class. *)
Fixpoint accepts (k : klass) (kw : dict) : bool :=
  match k with
  | Klass _ _ _ params body =>
      matches params kw
      && forallb (fun ae =>
                    match snd ae with
                    | EParam _ => true
                    | ENew k' p =>
                        match get p (bound params kw) with
                        | Some v =>
                            match kwargs v with
                            | Some kw' => accepts k' kw'
                            | None => false
                            end
                        | None => false
                        end
                    end) body
  end.

(** A value a first load of the class succeeds on: a dictionary with
    string keys that has the structure of the class. *)
Definition valid (k : klass) (v : value) : bool :=
  match kwargs v with
  | Some kw => accepts k kw
  | None => false
  end.

(** A value whose keys bind to the parameters of [__init__]. *)
Definition fits (k : klass) (v : value) : bool :=
  match kwargs v with
  | Some kw => matches (k_params k) kw
  | None => false
  end.

(** The keys that no parameter takes. *)
Definition unexpected (params : list (string * option value)) (kwargs : dict) : list string :=
  List.filter (fun k => negb (mem k (keys params))) (keys kwargs).

(** The names a mismatch is about. *)
Definition offending (params : list (string * option value)) (kwargs : dict) : list string :=
  unexpected params kwargs ++ missing params kwargs.

(** A parameter of the body is fit for the assignment that reads it. *)
Definition sub_ok (env : dict) (ae : string * expr) : bool :=
  match snd ae with
  | EParam _ => true
  | ENew k' p =>
      match get p env with
      | Some v =>
          match kwargs v with
          | Some kw' => accepts k' kw'
          | None => false
          end
      | None => false
      end
  end.

(** The constructor only stores its parameters: it builds no nested
    record. *)
Definition flat (k : klass) : bool :=
  forallb (fun ae => match snd ae with EParam _ => true | ENew _ _ => false end) (k_body k).

(** [x] is a part of [s]. *)
Definition occurs (x s : string) : Prop :=
  exists pre post : string, s = pre +:+ (x +:+ post).

(** *** The operations as calls on the process *)

Inductive source : Type :=
| FromDict (_dict : value)
| FromFile (yaml_file : string).

Section Calls.

Variable isfile : string -> bool.
Variable open_load : string -> result value.

Definition load (k : klass) (src : source) : M loc :=
  match src with
  | FromDict d => load_from_dict k d
  | FromFile f => from_file isfile open_load k f
  end.

Definition reload (k : klass) (l : loc) (src : source) : M unit :=
  match src with
  | FromDict d => reload_from_dict k l d
  | FromFile f => reload_from_file isfile open_load k l f
  end.

(** The value a source holds, once the file is deserialized. *)
Definition content_of (src : source) : option value :=
  match src with
  | FromDict v => Some v
  | FromFile f =>
      if isfile f
      then match open_load f with Ok v => Some v | Raise _ => None end
      else None
  end.

(** The keywords it gives, when it holds a dictionary with string keys. *)
Definition mapping_of (src : source) : option dict :=
  match content_of src with
  | Some v => kwargs v
  | None => None
  end.

(** The origin [_type_error_response] is given. *)
Definition origin_of (src : source) : string :=
  match src with
  | FromDict _ => "dict variable"
  | FromFile f => f
  end.

(** A source a first load in a fresh process succeeds on. *)
Definition valid_source (k : klass) (src : source) : Prop :=
  exists l s', load k src initial = (Ok l, s').

Inductive call : Type :=
| Load (k : klass) (src : source)
| Instance (k : klass)
| Reload (k : klass) (l : loc) (src : source).

Definition step (c : call) (s : state) : state :=
  match c with
  | Load k src => snd (load k src s)
  | Instance k => snd (instance k s)
  | Reload k l src => snd (reload k l src s)
  end.

Definition run (cs : list call) (s : state) : state :=
  fold_left (fun s c => step c s) cs s.

(** During the calls [cs] made from [s], no load of the class [c] has
    returned: each one raised. *)
Fixpoint never_loaded (c : cls_id) (cs : list call) (s : state) : Prop :=
  match cs with
  | [] => True
  | c0 :: cs' =>
      match c0 with
      | Load k src => cid k = c -> exists e, fst (load k src s) = Raise e
      | _ => True
      end
      /\ never_loaded c cs' (step c0 s)
  end.

End Calls.

(** Every instance in the heap is the registered instance of its class. *)
Definition heap_registered (s : state) : Prop :=
  forall l o, heap s !! l = Some o -> instances s !! o_class o = Some l.

(** Every entry of the registry names an instance of its class. *)
Definition registry_sound (s : state) : Prop :=
  forall c l, instances s !! c = Some l ->
              exists o, heap s !! l = Some o /\ o_class o = c.

(** At most one instance of each class is alive. *)
Definition one_per_class (s : state) : Prop :=
  forall l1 l2 o1 o2,
    heap s !! l1 = Some o1 -> heap s !! l2 = Some o2 ->
    o_class o1 = o_class o2 -> l1 = l2.

(** The attributes [__init__] declares, in the order of their first
    assignment. *)
Definition add_key (l : list string) (a : string) : list string :=
  if mem a l then l else l ++ [a].

Definition declared_attrs (k : klass) : list string :=
  fold_left add_key (keys (k_body k)) [].

(** *** The classes of the specification's scenarios *)

(** [class Config(ConfigSuperClass, metaclass=Singleton)] with
    [def __init__(self, host, port, timeout=30)] storing each parameter. *)
Definition Config : klass :=
  Klass 1 "__main__" "Config"
        [("host", None); ("port", None); ("timeout", Some (VInt 30))]
        [("host", EParam "host"); ("port", EParam "port"); ("timeout", EParam "timeout")].


(** The mapping of the scenarios, and the process once [Config] is
    loaded from it. *)
Definition x_8080 : dict := [("host", VStr "x"); ("port", VInt 8080)].
Definition loaded : state := snd (load_from_dict Config (dictv x_8080) initial).
Definition x_8080_extra : dict :=
  [("host", VStr "x"); ("port", VInt 8080); ("extra", VInt 1)].
Definition y_1_5 : dict := [("host", VStr "y"); ("port", VInt 1); ("timeout", VInt 5)].

(** The classes of the module's docstring: [_SubConfig(param3, param4)],
    and [ConfigurationData(param1, param2, subconf)] whose [subconf]
    becomes a [_SubConfig]. *)
Definition _SubConfig : klass :=
  Klass 2 "__main__" "_SubConfig"
        [("param3", None); ("param4", None)]
        [("param3", EParam "param3"); ("param4", EParam "param4")].

Definition ConfigurationData : klass :=
  Klass 3 "__main__" "ConfigurationData"
        [("param1", None); ("param2", None); ("subconf", None)]
        [("param1", EParam "param1"); ("param2", EParam "param2");
         ("subconf", ENew _SubConfig "subconf")].

End ConfigTools.

(** ** [scheduler.py] *)

Module Scheduler.

(** [datetime.now()] is a number of microseconds; the difference of two of
    them is a [timedelta], which Python keeps as days, seconds within the
    day and microseconds within the second. *)
Definition us_per_second : Z := 1000000.
Definition seconds_per_day : Z := 86400.

(** [delta.seconds]: the seconds field, between 0 and 86399. *)
Definition td_seconds (delta : Z) : Z :=
  (delta mod (seconds_per_day * us_per_second)) / us_per_second.

(** [delta.total_seconds()], rounded down to a whole second. *)
Definition td_total_seconds (delta : Z) : Z := delta / us_per_second.

(** What the loop does, in order: a call of the function, a message of
    [logging.debug], a call of [sleep] with its argument. *)
Inductive event : Type :=
| EvCall
| EvDebug (msg : string)
| EvSleep (seconds : Z).

Record world : Type := World { now : Z; log : list event }.

(** A call returns, or raises an exception, given by the name of its
    class. *)
Inductive outcome : Type :=
| Returned
| Raised (e : string).

(** [time.sleep] keeps a duration as a signed 64-bit number of
    nanoseconds: it takes no more than this many whole seconds. *)
Definition max_sleep : Z := 9223372036.

Section Platform.

(** Whether the operating system refuses, at that moment, a sleep of that
    many seconds that the interpreter has accepted. *)
Variable os_refuses : world -> Z -> bool.

(** [sleep(seconds)] for a whole number of seconds: an [OverflowError]
    when the duration does not fit, a [ValueError] when it is negative, an
    [OSError] when the operating system refuses it; otherwise the clock
    moves forward by the duration. *)
Definition sleep (seconds : Z) (w : world) : outcome * world :=
  let w' := World (now w) (log w ++ [EvSleep seconds]) in
  if (seconds <? - max_sleep) || (max_sleep <? seconds) then (Raised "OverflowError", w')
  else if seconds <? 0 then (Raised "ValueError", w')
  else if os_refuses w seconds then (Raised "OSError", w')
  else (Returned, World (now w + seconds * us_per_second) (log w')).

End Platform.

Definition debug (msg : string) (w : world) : world :=
  World (now w) (log w ++ [EvDebug msg]).

Section Decorator.

Variable os_refuses : world -> Z -> bool.
Variable minutes : Z.
(** The decorated function, applied to its arguments: it changes the world
    and returns or raises. *)
Variable func : world -> outcome * world.

(** One turn of the [while True] of [inner]. *)
Definition turn (w : world) : outcome * world :=
  let start := now w in
  match func (World (now w) (log w ++ [EvCall])) with
  | (Raised e, w1) => (Raised e, w1)
  | (Returned, w1) =>
      let time_left := minutes * 60 - td_seconds (now w1 - start) in
      let wait_until := if time_left >? 0 then time_left else 0 in
      let w2 :=
        if wait_until =? 0 then w1
        else debug ("run pending " +:+ repr_int wait_until +:+ " seconds (scheduled)") w1 in
      sleep os_refuses wait_until w2
  end.

(** [inner], cut after [n] turns: [None] while the loop is still running,
    [Some e] once the exception [e] has left it. *)
Fixpoint inner (n : nat) (w : world) : option string * world :=
  match n with
  | O => (None, w)
  | S n' =>
      match turn w with
      | (Raised e, w1) => (Some e, w1)
      | (Returned, w1) => inner n' w1
      end
  end.

End Decorator.

(** [schedule_every(minutes)(func)] *)
Definition schedule_every (os_refuses : world -> Z -> bool) (minutes : Z)
    (func : world -> outcome * world) :
  nat -> world -> option string * world := inner os_refuses minutes func.

(** [schedule_every_five_minutes(func)] *)
Definition schedule_every_five_minutes (os_refuses : world -> Z -> bool)
    (func : world -> outcome * world) :
  nat -> world -> option string * world := schedule_every os_refuses 5 func.

(** An operating system that refuses no sleep. *)
Definition never_refuses : world -> Z -> bool := fun _ _ => false.

(** A function whose every run lasts [d] microseconds. *)
Definition lasting (d : Z) (w : world) : outcome * world :=
  (Returned, World (now w + d) (log w)).

(** A sleep of the log lasts between 0 and [hi] seconds. *)
Definition sleep_within (hi : Z) (e : event) : Prop :=
  match e with
  | EvSleep z => 0 <= z <= hi
  | _ => True
  end.

Definition is_call (e : event) : bool :=
  match e with EvCall => true | _ => false end.

Definition is_sleep (e : event) : bool :=
  match e with EvSleep _ => true | _ => false end.

Definition count (p : event -> bool) (l : list event) : nat :=
  length (List.filter p l).

(** A function that returns and writes nothing in the log of the loop
    (it neither sleeps nor logs by itself). *)
Definition quiet (func : world -> outcome * world) : Prop :=
  forall w, fst (func w) = Returned /\ log (snd (func w)) = log w.

End Scheduler.

(** ** [logger.py] *)

Module Logger.

(** The levels of [logging] are integers. *)
Definition NOTSET : Z := 0.
Definition DEBUG : Z := 10.
Definition INFO : Z := 20.
Definition WARNING : Z := 30.

(** Where a handler writes: [StreamHandler()] writes on the standard
    error stream, [FileHandler(path, mode='a', encoding="utf-8")] appends
    to the file. *)
Inductive target : Type :=
| Console
| File (path : string).

Record handler : Type := Handler {
  h_target : target;
  h_level : Z;
  h_format : string
}.

(** The root logger: its level and its handlers, in the order they were
    added. *)
Record root : Type := Root {
  r_level : Z;
  r_handlers : list handler
}.

(** The root logger of a process that has configured nothing. *)
Definition unconfigured : root := Root WARNING [].

Definition format : string := "%(asctime)s - %(name)s - %(levelname)s - %(message)s".

(** [if file_log_path:] for a path that is [None] or a string. *)
Definition truthy (file_log_path : option string) : option string :=
  match file_log_path with
  | Some EmptyString => None
  | Some p => Some p
  | None => None
  end.

Section Files.

(** Whether [FileHandler] can open the file for appending; when it cannot
    it raises an [OSError]. *)
Variable can_open : string -> bool.

(** [init_global_logger(log_level, file_log_path)]: the root logger it
    leaves, and the exception that stopped it, if one did. *)
Definition init_global_logger (log_level : Z) (file_log_path : option string)
    (r : root) : root * option string :=
  let r1 := Root log_level (r_handlers r) in
  let console := Handler Console log_level format in
  match truthy file_log_path with
  | Some p =>
      if can_open p
      then (Root log_level (r_handlers r ++ [Handler (File p) DEBUG format; console]), None)
      else (r1, Some "OSError"%string)
  | None => (Root log_level (r_handlers r ++ [console]), None)
  end.

(** [init_global_logger()], with the defaults of its parameters. *)
Definition init_global_logger_default (r : root) : root * option string :=
  init_global_logger DEBUG None r.

(** Calling it [n] times with the same arguments, as long as it returns. *)
Fixpoint init_times (n : nat) (log_level : Z) (file_log_path : option string)
    (r : root) : root :=
  match n with
  | O => r
  | S n' => init_times n' log_level file_log_path
              (fst (init_global_logger log_level file_log_path r))
  end.

End Files.

(** [Logger.isEnabledFor(level)] on the root logger, with nothing disabled
    ([logging.disable] not called): levels not above 0 are never enabled. *)
Definition enabled (r : root) (level : Z) : bool :=
  (0 <? level) && (r_level r <=? level).

(** Where a record of the given level is written, when it is logged on
    the root logger ([Logger.log] and the like): [Logger.callHandlers]
    passes it to each handler whose level it reaches; a logger without any
    handler falls back on [logging.lastResort], which writes on the console
    from [WARNING] on. *)
Definition delivered (r : root) (level : Z) : list target :=
  if enabled r level
  then match r_handlers r with
       | [] => if WARNING <=? level then [Console] else []
       | hs => map h_target (List.filter (fun h => h_level h <=? level) hs)
       end
  else [].

(** [logging.basicConfig()]: on a root logger without handlers it adds a
    console handler that takes every level and has the format of the
    library; on another it does nothing. *)
Definition BASIC_FORMAT : string := "%(levelname)s:%(name)s:%(message)s".

Definition basicConfig (r : root) : root :=
  match r_handlers r with
  | [] => Root (r_level r) [Handler Console NOTSET BASIC_FORMAT]
  | _ => r
  end.

(** [logging.log(level, msg)], [logging.debug(msg)], [logging.info(msg)]
    and the like, the functions of the module that the docstring of
    [init_global_logger] tells to use: they call [basicConfig] before
    they log on the root logger. *)
Definition log (level : Z) (r : root) : list target * root :=
  let r' := basicConfig r in (delivered r' level, r').

Definition is_console (t : target) : bool :=
  match t with Console => true | File _ => false end.

End Logger.
(** * Properties *)

Module ConfigToolsSpec.
Import ConfigTools.

(** ** The singleton registry *)

Lemma Singleton_call_cached k d s l :
  instances s !! cid k = Some l ->
  mem "cls" (keys d) = false ->
  Singleton_call k d s = (Ok l, s).
Proof.
  intros Hl Hcls. unfold Singleton_call. rewrite Hcls, Hl. reflexivity.
Qed.

Lemma Singleton_call_cls k d s :
  mem "cls" (keys d) = true ->
  Singleton_call k d s = (Raise (type_error cls_clash), s).
Proof. intros Hcls. unfold Singleton_call. rewrite Hcls. reflexivity. Qed.

(** ** Keywords at the place of a call *)

Lemma keywords_dictv d : keywords (map (fun kv => (VStr (fst kv), snd kv)) d) = Some d.
Proof.
  induction d as [|[k v] d IH]; simpl; [reflexivity|]. rewrite IH. reflexivity.
Qed.

Lemma kwargs_dictv d : kwargs (dictv d) = Some d.
Proof. apply keywords_dictv. Qed.

Lemma keywords_Some m :
  forall d, keywords m = Some d -> m = map (fun kv => (VStr (fst kv), snd kv)) d.
Proof.
  induction m as [|[k v] m IH]; intros d; simpl.
  - intros [= <-]. reflexivity.
  - destruct k; try discriminate.
    destruct (keywords m) as [d0|]; [|discriminate].
    intros [= <-]. simpl. rewrite (IH d0 eq_refl). reflexivity.
Qed.

(** The values that give keywords are the dictionaries with string keys. *)
Lemma kwargs_Some v d : kwargs v = Some d <-> v = dictv d.
Proof.
  split.
  - destruct v; simpl; try discriminate. intros H. apply keywords_Some in H.
    unfold dictv. rewrite H. reflexivity.
  - intros ->. apply kwargs_dictv.
Qed.

Lemma unpack_kwargs f v d : kwargs v = Some d -> unpack f v = Ok d.
Proof.
  destruct v; simpl; try discriminate. unfold unpack. intros ->. reflexivity.
Qed.

Lemma unpack_Ok_inv f v d : unpack f v = Ok d -> kwargs v = Some d.
Proof.
  unfold unpack. destruct v; simpl; try discriminate.
  destruct (keywords d0); [intros [= <-]; reflexivity|discriminate].
Qed.

Lemma unpack_refused f v :
  kwargs v = None -> exists msg, unpack f v = Raise (type_error msg).
Proof.
  unfold unpack, keywords_error, not_a_mapping_error.
  destruct v; simpl; try (intros _; eexists; reflexivity).
  intros ->. eexists. reflexivity.
Qed.

Lemma unpack_TypeError f v e : unpack f v = Raise e -> e_class e = TypeError.
Proof.
  destruct (kwargs v) as [d|] eqn:Hk.
  - rewrite (unpack_kwargs f v d Hk). discriminate.
  - destruct (unpack_refused f v Hk) as [msg ->]. intros [= <-]. reflexivity.
Qed.

Lemma call_with_kwargs k v d s :
  kwargs v = Some d -> call_with k v s = Singleton_call k d s.
Proof. intros H. unfold call_with. rewrite (unpack_kwargs _ _ _ H). reflexivity. Qed.

Lemma call_with_refused k v s :
  kwargs v = None -> exists msg, call_with k v s = (Raise (type_error msg), s).
Proof.
  intros H. unfold call_with.
  destruct (unpack_refused (call_name k) v H) as [msg ->]. eexists. reflexivity.
Qed.

Lemma init_with_kwargs k l v d s :
  kwargs v = Some d -> init_with k l v s = init k l d s.
Proof. intros H. unfold init_with. rewrite (unpack_kwargs _ _ _ H). reflexivity. Qed.

Lemma init_with_refused k l v s :
  kwargs v = None -> exists msg, init_with k l v s = (Raise (type_error msg), s).
Proof.
  intros H. unfold init_with.
  destruct (unpack_refused (k_module k +:+ "." +:+ init_name k) v H) as [msg ->].
  eexists. reflexivity.
Qed.

(** A call either passes keywords on, or is refused where it is made. *)
Lemma call_with_inv k v s r s' :
  call_with k v s = (r, s') ->
  (exists d, kwargs v = Some d /\ Singleton_call k d s = (r, s'))
  \/ (kwargs v = None /\ s' = s /\ exists msg, r = Raise (type_error msg)).
Proof.
  destruct (kwargs v) as [d|] eqn:Hk.
  - rewrite (call_with_kwargs _ _ _ _ Hk). intros H. left. exists d. auto.
  - destruct (call_with_refused k v s Hk) as [msg ->]. intros [= <- <-].
    right. split; [reflexivity|]. split; [reflexivity|]. exists msg. reflexivity.
Qed.

Lemma init_with_inv k l v s r s' :
  init_with k l v s = (r, s') ->
  (exists d, kwargs v = Some d /\ init k l d s = (r, s'))
  \/ (kwargs v = None /\ s' = s /\ exists msg, r = Raise (type_error msg)).
Proof.
  destruct (kwargs v) as [d|] eqn:Hk.
  - rewrite (init_with_kwargs _ _ _ _ _ Hk). intros H. left. exists d. auto.
  - destruct (init_with_refused k l v s Hk) as [msg ->]. intros [= <- <-].
    right. split; [reflexivity|]. split; [reflexivity|]. exists msg. reflexivity.
Qed.

Lemma call_with_Ok_inv k v s l s' :
  call_with k v s = (Ok l, s') ->
  exists d, kwargs v = Some d /\ Singleton_call k d s = (Ok l, s').
Proof.
  intros H. apply call_with_inv in H as [H|(_ & _ & msg & Hr)]; [exact H|discriminate].
Qed.

Lemma load_from_dict_kwargs k v d s :
  kwargs v = Some d ->
  load_from_dict k v s = try_except_TypeError "dict variable" (Singleton_call k d) s.
Proof.
  intros H. unfold load_from_dict, try_except_TypeError.
  rewrite (call_with_kwargs _ _ _ _ H). reflexivity.
Qed.

Lemma reload_from_dict_kwargs k l v d s :
  kwargs v = Some d ->
  reload_from_dict k l v s = try_except_TypeError "dict variable" (init k l d) s.
Proof.
  intros H. unfold reload_from_dict, try_except_TypeError.
  rewrite (init_with_kwargs _ _ _ _ _ H). reflexivity.
Qed.

Lemma load_from_dict_cached k d s l :
  instances s !! cid k = Some l ->
  mem "cls" (keys d) = false ->
  load_from_dict k (dictv d) s = (Ok l, s).
Proof.
  intros Hl Hcls. rewrite (load_from_dict_kwargs _ _ _ _ (kwargs_dictv d)).
  unfold try_except_TypeError.
  rewrite (Singleton_call_cached _ _ _ _ Hl Hcls). reflexivity.
Qed.

(** ** Constructors *)

Lemma new_unfold k d :
  new k d =
  match bind_args (init_name k) (k_params k) d with
  | Raise e => Raise e
  | Ok env =>
      match exec_body env (k_body k) [] with
      | (dd, None) => Ok (VObj (k_name k) dd)
      | (_, Some e) => Raise e
      end
  end.
Proof.
  destruct k as [i m n ps b]. unfold init_name. simpl.
  destruct (bind_args (n +:+ ".__init__") ps d) as [env|e]; [|reflexivity].
  generalize (@nil (string * value)).
  induction b as [|[a e] b IH]; intros d0; simpl; [reflexivity|].
  destruct e as [p|k' p]; simpl.
  - destruct (get p env); [apply IH|reflexivity].
  - destruct (get p env) as [v|]; [|reflexivity].
    destruct (unpack (call_name k') v) as [kw|x]; [|reflexivity].
    destruct (new k' kw); [apply IH|reflexivity].
Qed.

Lemma bind_args_TypeError f ps d e :
  bind_args f ps d = Raise e -> e_class e = TypeError.
Proof.
  unfold bind_args, bad_keyword_error, missing_error.
  destruct (first_bad_keyword (keys ps) d) as [k|].
  - destruct (String.eqb k "self"); intros [= <-]; reflexivity.
  - destruct (missing ps d); intros [= <-]; reflexivity.
Qed.

Lemma try_except_Ok {A} origin (m : M A) s a s' :
  m s = (Ok a, s') -> try_except_TypeError origin m s = (Ok a, s').
Proof. intros H. unfold try_except_TypeError. rewrite H. reflexivity. Qed.

Lemma try_except_Raise {A} origin (m : M A) s e s' :
  m s = (Raise e, s') -> try_except_TypeError origin m s = (Raise (translated origin e), s').
Proof.
  intros H. unfold try_except_TypeError. rewrite H.
  destruct e as [[] msg]; reflexivity.
Qed.

Lemma state_eta s : State (heap s) (instances s) (trace s) = s.
Proof. destruct s; reflexivity. Qed.

Lemma take_alloc (h : list obj) o o' :
  take (length h) (<[length h := o']> (h ++ [o])) = h.
Proof.
  rewrite take_insert_ge by lia. rewrite take_app_length. reflexivity.
Qed.

Lemma insert_alloc (h : list obj) o o' :
  <[length h := o']> (h ++ [o]) = h ++ [o'].
Proof.
  replace (length h) with (length h + 0)%nat at 1 by lia.
  rewrite insert_app_r. reflexivity.
Qed.

Lemma lookup_alloc (h : list obj) o : (h ++ [o]) !! length h = Some o.
Proof. apply list_lookup_middle. reflexivity. Qed.

(** [type.__call__] in its three outcomes. *)
Lemma type_call_bind_fails k d s e :
  bind_args (init_name k) (k_params k) d = Raise e ->
  type_call k d s = (Raise e, s).
Proof.
  intros Hb. unfold type_call, init. rewrite Hb. simpl.
  rewrite take_app_length. f_equal. apply state_eta.
Qed.

Lemma type_call_body k d s env :
  bind_args (init_name k) (k_params k) d = Ok env ->
  type_call k d s =
  match exec_body env (k_body k) [] with
  | (dd, None) =>
      (Ok (length (heap s)),
       State (heap s ++ [Obj (cid k) dd]) (instances s) (trace s ++ [EvInit (cid k)]))
  | (_, Some e) =>
      (Raise e, State (heap s) (instances s) (trace s ++ [EvInit (cid k)]))
  end.
Proof.
  intros Hb. unfold type_call, init. rewrite Hb. simpl.
  rewrite lookup_alloc. simpl.
  destruct (exec_body env (k_body k) []) as [dd [e|]]; simpl.
  - rewrite take_alloc. reflexivity.
  - rewrite insert_alloc. reflexivity.
Qed.

(** ** Binding *)

Lemma mem_In k l : mem k l = true <-> In k l.
Proof.
  unfold mem. rewrite existsb_exists. split.
  - intros (x & Hx & He). apply String.eqb_eq in He. subst. exact Hx.
  - intros H. exists k. split; [exact H|apply String.eqb_refl].
Qed.

Lemma mem_false k l : mem k l = false <-> ~ In k l.
Proof.
  rewrite <- mem_In. destruct (mem k l); split; intros H; congruence.
Qed.

Lemma first_bad_None names d :
  first_bad_keyword names d = None <->
  (forall k, In k (keys d) -> k <> "self" /\ In k names).
Proof.
  induction d as [|[k v] d IH]; simpl.
  - split; [intros _ k []|reflexivity].
  - destruct (String.eqb_spec k "self") as [->|Hs].
    + split; [discriminate|]. intros H. destruct (H "self") as [Hn _]; [left; reflexivity|].
      exfalso; apply Hn; reflexivity.
    + destruct (mem k names) eqn:Hm.
      * rewrite IH. apply mem_In in Hm. split.
        -- intros H k' [<-|Hin]; [split; assumption|apply H, Hin].
        -- intros H k' Hin. apply H. right. exact Hin.
      * apply mem_false in Hm. split; [discriminate|].
        intros H. exfalso. apply Hm. apply (H k). left. reflexivity.
Qed.

Lemma first_bad_Some names d k :
  first_bad_keyword names d = Some k ->
  In k (keys d) /\ (k = "self" \/ ~ In k names).
Proof.
  induction d as [|[k0 v] d IH]; simpl; [discriminate|].
  destruct (String.eqb_spec k0 "self") as [->|Hs].
  - intros [= <-]. split; [left; reflexivity|left; reflexivity].
  - destruct (mem k0 names) eqn:Hm.
    + intros H. destruct (IH H) as [Hin Hk]. split; [right; exact Hin|exact Hk].
    + intros [= <-]. apply mem_false in Hm. split; [left; reflexivity|right; exact Hm].
Qed.

Lemma missing_nil ps d :
  missing ps d = [] <-> forallb (fun p => mem p (keys d)) (required ps) = true.
Proof.
  unfold missing. induction (required ps) as [|p l IH]; simpl.
  - split; reflexivity.
  - destruct (mem p (keys d)); simpl; [exact IH|split; discriminate].
Qed.

Lemma In_missing ps d p :
  In p (missing ps d) <-> In p (required ps) /\ ~ In p (keys d).
Proof.
  unfold missing. rewrite filter_In, negb_true_iff, mem_false. reflexivity.
Qed.

Lemma In_unexpected ps d k :
  In k (unexpected ps d) <-> In k (keys d) /\ ~ In k (keys ps).
Proof.
  unfold unexpected. rewrite filter_In, negb_true_iff, mem_false. reflexivity.
Qed.

(** Binding succeeds exactly on the mappings that match the signature. *)
Lemma bind_args_Ok f ps d :
  mem "self" (keys ps) = false ->
  matches ps d = true -> bind_args f ps d = Ok (bound ps d).
Proof.
  intros Hself Hm. unfold matches in Hm. apply andb_prop in Hm as [Hreq Hkeys].
  unfold bind_args.
  assert (first_bad_keyword (keys ps) d = None) as ->.
  { apply first_bad_None. intros k Hin.
    rewrite forallb_forall in Hkeys. specialize (Hkeys k Hin). apply mem_In in Hkeys.
    split; [|exact Hkeys]. intros ->. apply mem_false in Hself. contradiction. }
  apply missing_nil in Hreq. rewrite Hreq. reflexivity.
Qed.

Lemma bind_args_matches f ps d env :
  bind_args f ps d = Ok env -> matches ps d = true /\ env = bound ps d.
Proof.
  unfold bind_args.
  destruct (first_bad_keyword (keys ps) d) as [k|] eqn:Hbad; [discriminate|].
  destruct (missing ps d) eqn:Hmis; [|discriminate].
  intros [= <-]. split; [|reflexivity].
  unfold matches. apply andb_true_intro. split.
  - apply missing_nil. exact Hmis.
  - apply forallb_forall. intros k Hin. apply mem_In.
    rewrite first_bad_None in Hbad. apply Hbad. exact Hin.
Qed.

Lemma bind_args_mismatch f ps d :
  matches ps d = false -> exists e, bind_args f ps d = Raise e.
Proof.
  intros Hm. destruct (bind_args f ps d) as [env|e] eqn:Hb; [|eauto].
  apply bind_args_matches in Hb as [Hb _]. congruence.
Qed.

(** ** What the messages say *)

Lemma append_assoc (a b c : string) : (a +:+ b) +:+ c = a +:+ (b +:+ c).
Proof.
  induction a as [|x a IH]; [reflexivity|].
  change (String x ((a +:+ b) +:+ c) = String x (a +:+ (b +:+ c))). now rewrite IH.
Qed.

Lemma append_nil_r (a : string) : a +:+ "" = a.
Proof.
  induction a as [|x a IH]; [reflexivity|].
  change (String x (a +:+ "") = String x a). now rewrite IH.
Qed.

Lemma occurs_refl x : occurs x x.
Proof. exists ""%string, ""%string. simpl. rewrite append_nil_r. reflexivity. Qed.

Lemma occurs_app_r p x s : occurs x s -> occurs x (p +:+ s).
Proof.
  intros (pre & post & ->). exists (p +:+ pre), post. rewrite append_assoc. reflexivity.
Qed.

Lemma occurs_app_l x s q : occurs x s -> occurs x (s +:+ q).
Proof.
  intros (pre & post & ->). exists pre, (post +:+ q). now rewrite !append_assoc.
Qed.

Lemma occurs_String c x s : occurs x s -> occurs x (String c s).
Proof. intros H. apply (occurs_app_r (String c "")) in H. exact H. Qed.

Lemma occurs_trans x y s : occurs x y -> occurs y s -> occurs x s.
Proof.
  intros Hxy (pre & post & ->). apply occurs_app_r, occurs_app_l. exact Hxy.
Qed.

Create HintDb occurs.
#[local] Hint Resolve occurs_refl occurs_app_r occurs_app_l occurs_String : occurs.

Lemma bad_keyword_error_names f k : occurs (quoted k) (e_msg (bad_keyword_error f k)).
Proof.
  unfold bad_keyword_error. destruct (String.eqb_spec k "self") as [->|_]; simpl.
  - apply occurs_app_r. exists "() got multiple values for argument "%string, ""%string.
    reflexivity.
  - auto with occurs.
Qed.

Lemma format_missing_names a names : occurs (quoted a) (format_missing (a :: names)).
Proof.
  destruct names as [|b [|c names]]; simpl; auto with occurs.
Qed.

Lemma missing_error_names f a names :
  occurs (quoted a) (e_msg (missing_error f (a :: names))).
Proof.
  unfold missing_error, type_error, e_msg.
  do 6 apply occurs_app_r. apply format_missing_names.
Qed.

(** The [TypeError] of a failed binding names a key that no parameter
    takes, or a required parameter without a key. *)
Lemma bind_args_names f ps d e :
  mem "self" (keys ps) = false ->
  bind_args f ps d = Raise e ->
  exists name, In name (offending ps d) /\ occurs (quoted name) (e_msg e).
Proof.
  intros Hself. unfold bind_args, offending.
  destruct (first_bad_keyword (keys ps) d) as [k|] eqn:Hbad.
  - intros [= <-]. exists k. split; [|apply bad_keyword_error_names].
    apply in_or_app. left. apply In_unexpected.
    apply first_bad_Some in Hbad as [Hin [->|Hn]]; split; try assumption.
    apply mem_false. exact Hself.
  - destruct (missing ps d) as [|a names] eqn:Hmis; [discriminate|].
    intros [= <-]. exists a. split; [|apply missing_error_names].
    apply in_or_app. right. left. reflexivity.
Qed.

Lemma type_error_response_says origin m :
  let e := _type_error_response origin m in
  e_class e = ConfigFileParamError /\ occurs m (e_msg e) /\ occurs origin (e_msg e).
Proof.
  simpl. split; [reflexivity|]. split.
  - apply occurs_app_r, occurs_String, occurs_app_r. auto with occurs.
  - apply occurs_app_r, occurs_String. do 3 apply occurs_app_r. auto with occurs.
Qed.

(** ** The first load of a class *)

Lemma Singleton_call_first_bind_fails k d s e :
  instances s !! cid k = None ->
  mem "cls" (keys d) = false ->
  bind_args (init_name k) (k_params k) d = Raise e ->
  Singleton_call k d s = (Raise e, s).
Proof.
  intros Hl Hcls Hb. unfold Singleton_call. rewrite Hcls, Hl.
  rewrite (type_call_bind_fails _ _ _ _ Hb). reflexivity.
Qed.

Lemma Singleton_call_first_body k d s env :
  instances s !! cid k = None ->
  mem "cls" (keys d) = false ->
  bind_args (init_name k) (k_params k) d = Ok env ->
  Singleton_call k d s =
  match exec_body env (k_body k) [] with
  | (dd, None) =>
      (Ok (length (heap s)),
       State (heap s ++ [Obj (cid k) dd]) (<[cid k := length (heap s)]> (instances s))
             (trace s ++ [EvInit (cid k)]))
  | (_, Some e) =>
      (Raise e, State (heap s) (instances s) (trace s ++ [EvInit (cid k)]))
  end.
Proof.
  intros Hl Hcls Hb. unfold Singleton_call. rewrite Hcls, Hl.
  rewrite (type_call_body _ _ _ _ Hb).
  destruct (exec_body env (k_body k) []) as [dd [e|]]; reflexivity.
Qed.

(** A load that returns leaves the class registered with what it returned. *)
Lemma Singleton_call_registers k d s l s' :
  Singleton_call k d s = (Ok l, s') -> instances s' !! cid k = Some l.
Proof.
  unfold Singleton_call. destruct (mem "cls" (keys d)); [discriminate|].
  destruct (instances s !! cid k) as [l0|] eqn:Hl.
  - intros [= <- <-]. exact Hl.
  - destruct (type_call k d s) as [[l1|e] s1]; [|discriminate].
    intros [= <- <-]. simpl. apply lookup_insert_eq.
Qed.

Lemma try_except_Ok_inv {A} origin (m : M A) s a s' :
  try_except_TypeError origin m s = (Ok a, s') -> m s = (Ok a, s').
Proof.
  unfold try_except_TypeError. destruct (m s) as [[a0|[[] msg]] s0]; intros [= <- <-];
    reflexivity.
Qed.

Lemma load_from_dict_registers k v s l s' :
  load_from_dict k v s = (Ok l, s') -> instances s' !! cid k = Some l.
Proof.
  intros H. apply try_except_Ok_inv in H. apply call_with_Ok_inv in H as (d & _ & H).
  eapply Singleton_call_registers, H.
Qed.

(** ** The path precondition *)

(** C5, as the code has it: on a path that is not an existing regular
    file, [from_file] and [reload_from_file] raise the [AssertionError] of
    their [assert], whatever the loader and the state are, and leave the
    state as it was: the trace gets no [EvLoad], so nothing was opened or
    parsed. *)
Theorem not_a_file_raises_AssertionError
    (isfile : string -> bool) (open_load : string -> result value) k l path s :
  isfile path = false ->
  from_file isfile open_load k path s = (Raise (Exn AssertionError (assert_msg path)), s)
  /\ reload_from_file isfile open_load k l path s
     = (Raise (Exn AssertionError (assert_msg path)), s).
Proof.
  intros H. unfold from_file, reload_from_file. rewrite H. split; reflexivity.
Qed.

Lemma not_a_file_witness :
  (fun _ : string => false) "missing.yml"%string = false /\
  from_file (fun _ => false) (fun _ => Ok VNone) Config "missing.yml" initial
  = (Raise (Exn AssertionError (assert_msg "missing.yml")), initial).
Proof.
  split; [reflexivity|].
  apply (not_a_file_raises_AssertionError (fun _ => false) (fun _ => Ok VNone)
           Config 0%nat "missing.yml" initial).
  reflexivity.
Defined.

(** C5 as stated fails: the exception for a missing file is not an
    [InvalidPathError]. *)
Lemma not_a_file_not_InvalidPathError :
  ~ (exists e s', from_file (fun _ => false) (fun _ => Ok VNone) Config "missing.yml" initial
                  = (Raise e, s')
                  /\ class_name (e_class e) = "InvalidPathError"%string).
Proof. intros (e & s' & [= <- <-] & Hc). discriminate Hc. Qed.

(** ** Loading a class that is already loaded *)

(** C6 at its failing inputs.  Once the class is registered,
    [load_from_dict] returns the registered instance and leaves the whole
    state as it was (nothing is bound, no constructor runs: the trace gets
    no [EvInit]) for a dictionary with string keys none of which is [cls],
    whatever else it holds.  It does not for every mapping: the keyword
    [cls] is taken by the first parameter of [Singleton.__call__] and never
    reaches the registry, and what the call [cls( **_dict)] itself refuses
    (a key that is not a string, a value that is no mapping) does not
    either; each gives a [ConfigFileParamError]. *)
Theorem load_from_dict_when_loaded k v s l :
  instances s !! cid k = Some l ->
  load_from_dict k v s =
  match unpack (call_name k) v with
  | Ok d =>
      if mem "cls" (keys d)
      then (Raise (_type_error_response "dict variable" cls_clash), s)
      else (Ok l, s)
  | Raise e => (Raise (translated "dict variable" e), s)
  end.
Proof.
  intros Hl. unfold load_from_dict.
  destruct (unpack (call_name k) v) as [d|e] eqn:Hu.
  - apply unpack_Ok_inv in Hu.
    destruct (mem "cls" (keys d)) eqn:Hcls.
    + apply (try_except_Raise _ _ _ (type_error cls_clash)).
      rewrite (call_with_kwargs _ _ _ _ Hu). apply Singleton_call_cls, Hcls.
    + apply try_except_Ok. rewrite (call_with_kwargs _ _ _ _ Hu).
      apply Singleton_call_cached; assumption.
  - apply try_except_Raise. unfold call_with. rewrite Hu. reflexivity.
Qed.

Lemma load_from_dict_when_loaded_witness :
  instances loaded !! cid Config = Some 0%nat
  /\ load_from_dict Config (dictv [("host", VStr "y"); ("extra", VInt 1)]) loaded
     = (Ok 0%nat, loaded)
  /\ load_from_dict Config (dictv [("cls", VInt 1)]) loaded
     = (Raise (_type_error_response "dict variable" cls_clash), loaded)
  /\ load_from_dict Config (VDict [(VInt 1, VStr "a")]) loaded
     = (Raise (_type_error_response "dict variable" "keywords must be strings"), loaded)
  /\ reload_from_dict Config 0%nat
       (dictv [("cls", VInt 1); ("host", VStr "y"); ("port", VInt 1)]) loaded
     = (Raise (_type_error_response "dict variable"
                 "Config.__init__() got an unexpected keyword argument 'cls'"), loaded).
Proof.
  assert (Hl : instances loaded !! cid Config = Some 0%nat) by (vm_compute; reflexivity).
  split; [exact Hl|]. split; [|split; [|split]].
  - exact (load_from_dict_when_loaded Config
             (dictv [("host", VStr "y"); ("extra", VInt 1)]) loaded 0%nat Hl).
  - exact (load_from_dict_when_loaded Config (dictv [("cls", VInt 1)]) loaded 0%nat Hl).
  - exact (load_from_dict_when_loaded Config (VDict [(VInt 1, VStr "a")]) loaded 0%nat Hl).
  - vm_compute. reflexivity.
Defined.

(** ** The scenario with a default *)

(** C7: while [Config] is not loaded, loading it from [{host: "x",
    port: 8080}] returns an instance whose [timeout] is 30, and that
    instance is the one [instance] returns from then on. *)
Theorem Config_default_timeout s :
  instances s !! cid Config = None ->
  exists l s' o,
    load_from_dict Config (dictv x_8080) s = (Ok l, s')
    /\ heap s' !! l = Some o
    /\ get "timeout" (o_dict o) = Some (VInt 30)
    /\ instance Config s' = (Ok l, s').
Proof.
  intros Hl.
  assert (Hb : bind_args (init_name Config) (k_params Config) x_8080
               = Ok (bound (k_params Config) x_8080)) by reflexivity.
  pose proof (Singleton_call_first_body Config x_8080 s _ Hl eq_refl Hb) as Hc.
  cbn in Hc.
  eexists _, _, _. split; [|split; [|split]].
  - rewrite (load_from_dict_kwargs _ _ _ _ (kwargs_dictv x_8080)).
    apply try_except_Ok. exact Hc.
  - simpl. apply lookup_alloc.
  - reflexivity.
  - unfold instance. simpl. rewrite lookup_insert_eq. reflexivity.
Qed.

Lemma Config_default_timeout_witness :
  instances initial !! cid Config = None /\
  exists l s' o,
    load_from_dict Config (dictv x_8080) initial = (Ok l, s')
    /\ heap s' !! l = Some o
    /\ get "timeout" (o_dict o) = Some (VInt 30)
    /\ instance Config s' = (Ok l, s').
Proof.
  split; [reflexivity|]. apply (Config_default_timeout initial). reflexivity.
Defined.

(** ** One instance per class *)

Lemma init_heap_registered k l d s r s' :
  init k l d s = (r, s') -> heap_registered s -> heap_registered s'.
Proof.
  unfold init. destruct (bind_args _ _ d) as [env|e]; [|intros [= _ <-]; auto].
  destruct (heap s !! l) as [o|] eqn:Ho; [|intros [= _ <-]; auto].
  destruct (exec_body env (k_body k) (o_dict o)) as [dd x].
  intros [= _ <-] Hs l0 o0. simpl. rewrite list_lookup_insert_Some.
  intros [(<- & <- & _)|(_ & H0)]; simpl; apply Hs; assumption.
Qed.

Lemma init_instances k l d s r s' :
  init k l d s = (r, s') -> instances s' = instances s.
Proof.
  unfold init. destruct (bind_args _ _ d) as [env|e]; [|intros [= _ <-]; auto].
  destruct (heap s !! l) as [o|]; [|intros [= _ <-]; auto].
  destruct (exec_body env (k_body k) (o_dict o)) as [dd x].
  intros [= _ <-]. reflexivity.
Qed.

Lemma init_registry_sound k l d s r s' :
  init k l d s = (r, s') -> registry_sound s -> registry_sound s'.
Proof.
  unfold init. destruct (bind_args _ _ d) as [env|e]; [|intros [= _ <-]; auto].
  destruct (heap s !! l) as [o|] eqn:Ho; [|intros [= _ <-]; auto].
  destruct (exec_body env (k_body k) (o_dict o)) as [dd x].
  intros [= _ <-] Hs c l0 Hc. simpl in Hc |- *.
  destruct (Hs c l0 Hc) as (o0 & Ho0 & Hcl).
  destruct (Nat.eq_dec l0 l) as [->|Hne].
  - exists (Obj (o_class o) dd). split.
    + apply list_lookup_insert_eq. eapply lookup_lt_Some, Ho.
    + simpl. congruence.
  - exists o0. split; [|exact Hcl]. rewrite list_lookup_insert_ne by congruence. exact Ho0.
Qed.

Lemma Singleton_call_heap_registered k d s r s' :
  Singleton_call k d s = (r, s') -> heap_registered s -> heap_registered s'.
Proof.
  intros Hc Hs. destruct (mem "cls" (keys d)) eqn:Hcls.
  { rewrite (Singleton_call_cls _ _ _ Hcls) in Hc. injection Hc as _ <-. exact Hs. }
  destruct (instances s !! cid k) as [l|] eqn:Hl.
  { rewrite (Singleton_call_cached _ _ _ _ Hl Hcls) in Hc. injection Hc as _ <-. exact Hs. }
  destruct (bind_args (init_name k) (k_params k) d) as [env|e] eqn:Hb.
  - rewrite (Singleton_call_first_body _ _ _ _ Hl Hcls Hb) in Hc.
    destruct (exec_body env (k_body k) []) as [dd [x|]]; injection Hc as _ <-.
    + exact Hs.
    + intros l0 o0. simpl. rewrite lookup_app_Some.
      intros [H0|[Hle H0]].
      * specialize (Hs _ _ H0). rewrite lookup_insert_ne; [exact Hs|].
        intros Heq. rewrite <- Heq in Hs. congruence.
      * apply list_lookup_singleton_Some in H0 as [H0 <-]. simpl.
        replace l0 with (length (heap s)) by lia. apply lookup_insert_eq.
  - rewrite (Singleton_call_first_bind_fails _ _ _ _ Hl Hcls Hb) in Hc.
    injection Hc as _ <-. exact Hs.
Qed.

Lemma Singleton_call_registry_sound k d s r s' :
  Singleton_call k d s = (r, s') -> registry_sound s -> registry_sound s'.
Proof.
  intros Hc Hs. destruct (mem "cls" (keys d)) eqn:Hcls.
  { rewrite (Singleton_call_cls _ _ _ Hcls) in Hc. injection Hc as _ <-. exact Hs. }
  destruct (instances s !! cid k) as [l|] eqn:Hl.
  { rewrite (Singleton_call_cached _ _ _ _ Hl Hcls) in Hc. injection Hc as _ <-. exact Hs. }
  destruct (bind_args (init_name k) (k_params k) d) as [env|e] eqn:Hb.
  - rewrite (Singleton_call_first_body _ _ _ _ Hl Hcls Hb) in Hc.
    destruct (exec_body env (k_body k) []) as [dd [x|]]; injection Hc as _ <-.
    + exact Hs.
    + intros c l0. simpl. rewrite lookup_insert_Some.
      intros [[<- <-]|[Hne H0]].
      * exists (Obj (cid k) dd). split; [apply lookup_alloc|reflexivity].
      * destruct (Hs c l0 H0) as (o0 & Ho0 & Hcl). exists o0.
        split; [apply lookup_app_l_Some, Ho0|exact Hcl].
  - rewrite (Singleton_call_first_bind_fails _ _ _ _ Hl Hcls Hb) in Hc.
    injection Hc as _ <-. exact Hs.
Qed.

Lemma try_except_state {A} origin (m : M A) s :
  snd (try_except_TypeError origin m s) = snd (m s).
Proof.
  unfold try_except_TypeError. destruct (m s) as [[a|[[] msg]] s']; reflexivity.
Qed.

(** What every call keeps: a property of the heap and the registry that
    the constructor and [Singleton.__call__] keep. *)
Section Reachable.

Variable isfile : string -> bool.
Variable open_load : string -> result value.
Variable P : state -> Prop.
Hypothesis P_trace : forall s t, P s -> P (State (heap s) (instances s) t).
Hypothesis P_init : forall k l d s r s', init k l d s = (r, s') -> P s -> P s'.
Hypothesis P_call : forall k d s r s', Singleton_call k d s = (r, s') -> P s -> P s'.

Lemma call_with_keeps k v s : P s -> P (snd (call_with k v s)).
Proof.
  intros Hs. destruct (call_with k v s) as [r s'] eqn:Hc. simpl.
  apply call_with_inv in Hc as [(d & _ & Hc)|(_ & -> & _)]; [|exact Hs].
  eapply P_call; [exact Hc|exact Hs].
Qed.

Lemma init_with_keeps k l v s : P s -> P (snd (init_with k l v s)).
Proof.
  intros Hs. destruct (init_with k l v s) as [r s'] eqn:Hc. simpl.
  apply init_with_inv in Hc as [(d & _ & Hc)|(_ & -> & _)]; [|exact Hs].
  eapply P_init; [exact Hc|exact Hs].
Qed.

Lemma load_keeps k src s : P s -> P (snd (load isfile open_load k src s)).
Proof.
  intros Hs. destruct src as [v|f]; simpl.
  - unfold load_from_dict. rewrite try_except_state. apply call_with_keeps, Hs.
  - unfold from_file. destruct (isfile f); simpl; [|exact Hs].
    destruct (open_load f) as [content|e]; simpl; [|apply P_trace, Hs].
    rewrite try_except_state. apply call_with_keeps, P_trace, Hs.
Qed.

Lemma reload_keeps k l src s : P s -> P (snd (reload isfile open_load k l src s)).
Proof.
  intros Hs. destruct src as [v|f]; simpl.
  - unfold reload_from_dict. rewrite try_except_state. apply init_with_keeps, Hs.
  - unfold reload_from_file. destruct (isfile f); simpl; [|exact Hs].
    destruct (open_load f) as [content|e]; simpl; [|apply P_trace, Hs].
    rewrite try_except_state. apply init_with_keeps, P_trace, Hs.
Qed.

Lemma step_keeps c s : P s -> P (step isfile open_load c s).
Proof.
  intros Hs. destruct c as [k src|k|k l src]; simpl.
  - apply load_keeps, Hs.
  - unfold instance. destruct (instances s !! cid k); exact Hs.
  - apply reload_keeps, Hs.
Qed.

Lemma run_keeps cs s : P s -> P (run isfile open_load cs s).
Proof.
  revert s. induction cs as [|c cs IH]; intros s Hs; simpl; [exact Hs|].
  apply IH, step_keeps, Hs.
Qed.

End Reachable.

(** The invariants of the process: they hold at the start, and every call
    keeps them. *)
Lemma load_heap_registered isfile open_load k src s :
  heap_registered s -> heap_registered (snd (load isfile open_load k src s)).
Proof.
  apply (load_keeps isfile open_load heap_registered);
    [intros s0 t H; exact H|exact Singleton_call_heap_registered].
Qed.

Lemma run_heap_registered isfile open_load cs s :
  heap_registered s -> heap_registered (run isfile open_load cs s).
Proof.
  apply (run_keeps isfile open_load heap_registered);
    [intros s0 t H; exact H|exact init_heap_registered|exact Singleton_call_heap_registered].
Qed.

Lemma load_registry_sound isfile open_load k src s :
  registry_sound s -> registry_sound (snd (load isfile open_load k src s)).
Proof.
  apply (load_keeps isfile open_load registry_sound);
    [intros s0 t H; exact H|exact Singleton_call_registry_sound].
Qed.

Lemma run_registry_sound isfile open_load cs s :
  registry_sound s -> registry_sound (run isfile open_load cs s).
Proof.
  apply (run_keeps isfile open_load registry_sound);
    [intros s0 t H; exact H|exact init_registry_sound|exact Singleton_call_registry_sound].
Qed.

Lemma initial_heap_registered : heap_registered initial.
Proof. intros l o H. discriminate H. Qed.

Lemma initial_registry_sound : registry_sound initial.
Proof. intros c l H. discriminate H. Qed.

Lemma heap_registered_one_per_class s : heap_registered s -> one_per_class s.
Proof.
  intros Hs l1 l2 o1 o2 H1 H2 Hc.
  apply Hs in H1, H2. rewrite Hc in H1. congruence.
Qed.

(** ** Fetching the instance *)

Lemma Singleton_call_instances k d s r s' :
  Singleton_call k d s = (r, s') ->
  instances s' = match r with
                 | Ok l => <[cid k := l]> (instances s)
                 | Raise _ => instances s
                 end.
Proof.
  intros Hc. destruct (mem "cls" (keys d)) eqn:Hcls.
  { rewrite (Singleton_call_cls _ _ _ Hcls) in Hc. injection Hc as <- <-. reflexivity. }
  destruct (instances s !! cid k) as [l|] eqn:Hl.
  { rewrite (Singleton_call_cached _ _ _ _ Hl Hcls) in Hc. injection Hc as <- <-.
    symmetry. apply insert_id. exact Hl. }
  destruct (bind_args (init_name k) (k_params k) d) as [env|e] eqn:Hb.
  - rewrite (Singleton_call_first_body _ _ _ _ Hl Hcls Hb) in Hc.
    destruct (exec_body env (k_body k) []) as [dd [x|]]; injection Hc as <- <-; reflexivity.
  - rewrite (Singleton_call_first_bind_fails _ _ _ _ Hl Hcls Hb) in Hc.
    injection Hc as <- <-. reflexivity.
Qed.

Lemma call_with_instances k v s r s' :
  call_with k v s = (r, s') ->
  instances s' = match r with
                 | Ok l => <[cid k := l]> (instances s)
                 | Raise _ => instances s
                 end.
Proof.
  intros H. apply call_with_inv in H as [(d & _ & H)|(_ & -> & msg & ->)]; [|reflexivity].
  eapply Singleton_call_instances, H.
Qed.

Lemma init_with_instances k l v s r s' :
  init_with k l v s = (r, s') -> instances s' = instances s.
Proof.
  intros H. apply init_with_inv in H as [(d & _ & H)|(_ & -> & _)]; [|reflexivity].
  eapply init_instances, H.
Qed.

Lemma try_except_instances {A} origin (m : M A) s r s' :
  try_except_TypeError origin m s = (r, s') ->
  exists r0, m s = (r0, s')
             /\ match r, r0 with
                | Ok a, Ok a0 => a = a0
                | Raise _, Raise _ => True
                | _, _ => False
                end.
Proof.
  unfold try_except_TypeError. destruct (m s) as [[a|[[] msg]] s0]; intros [= <- <-];
    eexists; split; reflexivity || exact I.
Qed.

Section Registry.

Variable isfile : string -> bool.
Variable open_load : string -> result value.

(** A load changes the registry only by registering what it returns. *)
Lemma load_instances k src s r s' :
  load isfile open_load k src s = (r, s') ->
  instances s' = match r with
                 | Ok l => <[cid k := l]> (instances s)
                 | Raise _ => instances s
                 end.
Proof.
  destruct src as [v|f]; simpl.
  - intros H. apply try_except_instances in H as (r0 & H & Hr).
    apply call_with_instances in H. rewrite H.
    destruct r, r0; try contradiction; subst; reflexivity.
  - unfold from_file. destruct (isfile f); simpl; [|intros [= <- <-]; reflexivity].
    destruct (open_load f) as [content|e]; [|intros [= <- <-]; reflexivity].
    intros H. apply try_except_instances in H as (r0 & H & Hr).
    apply call_with_instances in H. rewrite H.
    destruct r, r0; try contradiction; subst; reflexivity.
Qed.

Lemma reload_instances k l src s :
  instances (snd (reload isfile open_load k l src s)) = instances s.
Proof.
  destruct src as [v|f]; simpl.
  - unfold reload_from_dict. rewrite try_except_state.
    destruct (init_with k l v s) as [r s'] eqn:Hi. apply init_with_instances in Hi. exact Hi.
  - unfold reload_from_file. destruct (isfile f); simpl; [|reflexivity].
    destruct (open_load f) as [content|e]; simpl; [|reflexivity].
    rewrite try_except_state.
    match goal with |- instances (snd (init_with k l content ?s0)) = _ =>
      destruct (init_with k l content s0) as [r s'] eqn:Hi end.
    apply init_with_instances in Hi. exact Hi.
Qed.

(** While no load of a class has returned, the registry has no entry for
    it. *)
Lemma never_loaded_not_registered c cs :
  forall s, instances s !! c = None ->
            never_loaded isfile open_load c cs s ->
            instances (run isfile open_load cs s) !! c = None.
Proof.
  induction cs as [|c0 cs IH]; intros s Hs Hn; simpl; [exact Hs|].
  destruct Hn as [H0 Hn]. apply IH; [|exact Hn].
  destruct c0 as [k src|k|k l src]; simpl.
  - destruct (load isfile open_load k src s) as [r s'] eqn:Hl. simpl.
    rewrite (load_instances _ _ _ _ _ Hl).
    destruct r as [l|e]; [|exact Hs].
    rewrite lookup_insert_ne; [exact Hs|].
    intros Heq. destruct (H0 Heq) as [e He]. discriminate He.
  - unfold instance. destruct (instances s !! cid k); exact Hs.
  - rewrite reload_instances. exact Hs.
Qed.

End Registry.

(** C4, as the code has it: after any calls among which no load of the
    class has returned, [instance] raises, and what it raises is a
    [ConfigFileParamError]; the state is left as it was. *)
Theorem instance_before_load_raises_ConfigFileParamError
    (isfile : string -> bool) (open_load : string -> result value) cs k :
  never_loaded isfile open_load (cid k) cs initial ->
  instance k (run isfile open_load cs initial)
  = (Raise (Exn ConfigFileParamError not_loaded_msg), run isfile open_load cs initial).
Proof.
  intros Hn. unfold instance.
  rewrite (never_loaded_not_registered isfile open_load (cid k) cs initial eq_refl Hn).
  reflexivity.
Qed.

Lemma instance_before_load_witness :
  never_loaded (fun _ => false) (fun _ => Ok VNone) (cid Config)
    [Load Config (FromDict (dictv x_8080_extra)); Load Config (FromFile "missing.yml")] initial
  /\ instance Config
       (run (fun _ => false) (fun _ => Ok VNone)
            [Load Config (FromDict (dictv x_8080_extra)); Load Config (FromFile "missing.yml")]
            initial)
     = (Raise (Exn ConfigFileParamError not_loaded_msg),
        run (fun _ => false) (fun _ => Ok VNone)
            [Load Config (FromDict (dictv x_8080_extra)); Load Config (FromFile "missing.yml")]
            initial).
Proof.
  assert (Hn : never_loaded (fun _ => false) (fun _ => Ok VNone) (cid Config)
                 [Load Config (FromDict (dictv x_8080_extra));
                  Load Config (FromFile "missing.yml")]
                 initial).
  { simpl. split; [intros _; eexists; vm_compute; reflexivity|].
    split; [intros _; eexists; vm_compute; reflexivity|exact I]. }
  split; [exact Hn|].
  exact (instance_before_load_raises_ConfigFileParamError
           (fun _ => false) (fun _ => Ok VNone) _ Config Hn).
Defined.

(** C4 as stated fails: in a fresh process the exception of [instance] is
    not an [InstanceNotLoadedError]. *)
Lemma instance_before_load_not_InstanceNotLoadedError :
  ~ (exists e s', instance Config initial = (Raise e, s')
                  /\ class_name (e_class e) = "InstanceNotLoadedError"%string).
Proof. intros (e & s' & [= <- <-] & Hc). discriminate Hc. Qed.

(** ** Loading twice *)

Section Twice.

Variable isfile : string -> bool.
Variable open_load : string -> result value.

Lemma load_registers k src s l s' :
  load isfile open_load k src s = (Ok l, s') -> instances s' !! cid k = Some l.
Proof.
  intros H. pose proof (load_instances _ _ _ _ _ _ _ H) as Hi. simpl in Hi.
  rewrite Hi. apply lookup_insert_eq.
Qed.

Lemma Singleton_call_Ok_no_cls k d s l s' :
  Singleton_call k d s = (Ok l, s') -> mem "cls" (keys d) = false.
Proof.
  unfold Singleton_call. destruct (mem "cls" (keys d)); [discriminate|reflexivity].
Qed.

(** A load is the call of the class on the keywords of its source, when
    the source gives keywords. *)
Lemma load_mapping k src d s :
  mapping_of isfile open_load src = Some d ->
  exists t,
    load isfile open_load k src s
    = try_except_TypeError (origin_of src) (Singleton_call k d)
        (State (heap s) (instances s) t).
Proof.
  unfold mapping_of. destruct src as [v|f]; simpl.
  - intros Hk. exists (trace s). rewrite state_eta. apply load_from_dict_kwargs, Hk.
  - destruct (isfile f) eqn:Hf; [|discriminate].
    destruct (open_load f) as [v|e] eqn:Hl; [|discriminate].
    intros Hk. exists (trace s ++ [EvLoad f]).
    unfold from_file. rewrite Hf, Hl. simpl. unfold try_except_TypeError.
    rewrite (call_with_kwargs _ _ _ _ Hk). reflexivity.
Qed.

(** A load that returns had keywords to pass. *)
Lemma load_Ok_mapping k src s l s' :
  load isfile open_load k src s = (Ok l, s') ->
  exists d, mapping_of isfile open_load src = Some d /\ mem "cls" (keys d) = false.
Proof.
  unfold mapping_of. destruct src as [v|f]; simpl.
  - intros H. apply try_except_Ok_inv in H. apply call_with_Ok_inv in H as (d & Hk & H).
    exists d. split; [exact Hk|]. eapply Singleton_call_Ok_no_cls, H.
  - unfold from_file. destruct (isfile f); simpl; [|discriminate].
    destruct (open_load f) as [v|e]; [|discriminate].
    intros H. apply try_except_Ok_inv in H. apply call_with_Ok_inv in H as (d & Hk & H).
    exists d. split; [exact Hk|]. eapply Singleton_call_Ok_no_cls, H.
Qed.

(** What a valid source is made of. *)
Lemma valid_source_inv k src :
  valid_source isfile open_load k src ->
  exists d, mapping_of isfile open_load src = Some d /\ mem "cls" (keys d) = false.
Proof. intros (l & s' & H). eapply load_Ok_mapping, H. Qed.

Lemma load_when_loaded k src s l :
  instances s !! cid k = Some l ->
  valid_source isfile open_load k src ->
  exists s2, load isfile open_load k src s = (Ok l, s2)
             /\ heap s2 = heap s /\ instances s2 = instances s.
Proof.
  intros Hl Hv. apply valid_source_inv in Hv as (d & Hd & Hcls).
  destruct (load_mapping k src d s Hd) as [t ->].
  eexists. split; [|split].
  - apply try_except_Ok. apply Singleton_call_cached; [exact Hl|exact Hcls].
  - reflexivity.
  - reflexivity.
Qed.

End Twice.

(** C1: in a process that has made any calls so far, when a load of [k]
    (from a mapping or from a file) has returned [l], then [l] is the
    entry of [k] in the registry and names an instance of [k] in the heap;
    a second load of [k] from any valid source returns the same [l]; the
    heap and the registry are what they were, so the instance is the one
    of the first load with the fields it had, and the data of the second
    source went nowhere; and no two instances in the heap have the same
    class. *)
Theorem second_load_returns_first_instance
    (isfile : string -> bool) (open_load : string -> result value)
    cs k src1 src2 l s1 :
  load isfile open_load k src1 (run isfile open_load cs initial) = (Ok l, s1) ->
  valid_source isfile open_load k src2 ->
  exists o s2,
    instances s1 !! cid k = Some l
    /\ heap s1 !! l = Some o
    /\ o_class o = cid k
    /\ load isfile open_load k src2 s1 = (Ok l, s2)
    /\ heap s2 = heap s1
    /\ instances s2 = instances s1
    /\ one_per_class s2.
Proof.
  intros H1 Hv.
  pose proof (load_registers _ _ _ _ _ _ _ H1) as Hl.
  assert (Hs1 : heap_registered s1 /\ registry_sound s1).
  { replace s1 with (snd (load isfile open_load k src1 (run isfile open_load cs initial)))
      by (rewrite H1; reflexivity).
    split.
    - apply load_heap_registered, run_heap_registered, initial_heap_registered.
    - apply load_registry_sound, run_registry_sound, initial_registry_sound. }
  destruct Hs1 as [Hreg Hsound].
  destruct (Hsound _ _ Hl) as (o & Ho & Hc).
  destruct (load_when_loaded isfile open_load k src2 s1 l Hl Hv) as (s2 & H2 & Hh & Hi).
  exists o, s2. repeat split; try assumption.
  apply heap_registered_one_per_class.
  intros l0 o0. rewrite Hh, Hi. apply Hreg.
Qed.

Lemma second_load_witness :
  load (fun _ => true) (fun _ => Ok (dictv [("host", VStr "y"); ("port", VInt 1)]))
       Config (FromDict (dictv x_8080))
       (run (fun _ => true) (fun _ => Ok (dictv [("host", VStr "y"); ("port", VInt 1)]))
            [] initial)
  = (Ok 0%nat, loaded)
  /\ valid_source (fun _ => true) (fun _ => Ok (dictv [("host", VStr "y"); ("port", VInt 1)]))
       Config (FromFile "other.yml")
  /\ exists o s2,
      instances loaded !! cid Config = Some 0%nat
      /\ heap loaded !! 0%nat = Some o
      /\ o_class o = cid Config
      /\ load (fun _ => true) (fun _ => Ok (dictv [("host", VStr "y"); ("port", VInt 1)]))
              Config (FromFile "other.yml") loaded = (Ok 0%nat, s2)
      /\ heap s2 = heap loaded
      /\ instances s2 = instances loaded
      /\ one_per_class s2.
Proof.
  assert (H1 : load (fun _ => true)
                 (fun _ => Ok (dictv [("host", VStr "y"); ("port", VInt 1)]))
                 Config (FromDict (dictv x_8080))
                 (run (fun _ => true)
                      (fun _ => Ok (dictv [("host", VStr "y"); ("port", VInt 1)]))
                      [] initial)
               = (Ok 0%nat, loaded)) by (vm_compute; reflexivity).
  assert (Hv : valid_source (fun _ => true)
                 (fun _ => Ok (dictv [("host", VStr "y"); ("port", VInt 1)]))
                 Config (FromFile "other.yml")).
  { eexists _, _. vm_compute. reflexivity. }
  split; [vm_compute; reflexivity|]. split; [exact Hv|].
  exact (second_load_returns_first_instance _ _ [] Config _ _ 0%nat loaded H1 Hv).
Defined.

(** ** Reloading *)

(** C10: when the keys of the mapping do not bind to the parameters of
    [__init__] (a required one has no key, a key is no parameter or is not
    even a string), and also when the value is no mapping at all,
    [reload_from_dict] raises a [ConfigFileParamError] and the state is
    what it was: the instance keeps every field, and the trace has no
    [EvInit], the body of the constructor was not entered. *)
Theorem reload_mismatch_changes_nothing k l v s :
  fits k v = false ->
  exists msg, reload_from_dict k l v s = (Raise (Exn ConfigFileParamError msg), s).
Proof.
  unfold fits. intros Hm. destruct (kwargs v) as [d|] eqn:Hk.
  - destruct (bind_args_mismatch (init_name k) _ _ Hm) as [e Hb].
    pose proof (bind_args_TypeError _ _ _ _ Hb) as Hc.
    destruct e as [c msg]. simpl in Hc. subst c.
    exists (e_msg (_type_error_response "dict variable" msg)).
    rewrite (reload_from_dict_kwargs _ _ _ _ _ Hk).
    rewrite (try_except_Raise _ _ s (Exn TypeError msg) s); [reflexivity|].
    unfold init. rewrite Hb. reflexivity.
  - destruct (init_with_refused k l v s Hk) as [msg Hi].
    exists (e_msg (_type_error_response "dict variable" msg)).
    unfold reload_from_dict. rewrite (try_except_Raise _ _ s (type_error msg) s Hi).
    reflexivity.
Qed.

Lemma reload_mismatch_witness :
  fits Config (dictv [("host", VStr "z"); ("extra", VInt 1)]) = false
  /\ exists msg,
      reload_from_dict Config 0%nat (dictv [("host", VStr "z"); ("extra", VInt 1)]) loaded
      = (Raise (Exn ConfigFileParamError msg), loaded).
Proof.
  split; [reflexivity|].
  apply (reload_mismatch_changes_nothing Config 0%nat
           (dictv [("host", VStr "z"); ("extra", VInt 1)]) loaded).
  reflexivity.
Defined.

Lemma get_set a' a v d :
  get a' (set a v d) = if String.eqb a' a then Some v else get a' d.
Proof.
  induction d as [|[k0 v0] d IH]; simpl; [reflexivity|].
  destruct (String.eqb_spec a k0) as [->|Hne]; simpl.
  - destruct (String.eqb a' k0); reflexivity.
  - rewrite IH. destruct (String.eqb_spec a' k0) as [->|]; [|reflexivity].
    destruct (String.eqb_spec k0 a) as [->|]; [contradiction|reflexivity].
Qed.

(** The body assigns the same values whatever [__dict__] it starts on:
    it stops at the same place, and each attribute ends with the value a
    fresh instance would have, or keeps its own if the body does not
    assign it. *)
Lemma exec_body_over env b base :
  forall d f d' f' r r',
    exec_body env b d = (d', r) ->
    exec_body env b f = (f', r') ->
    (forall a, get a d = match get a f with Some v => Some v | None => get a base end) ->
    r = r' /\
    (forall a, get a d' = match get a f' with Some v => Some v | None => get a base end).
Proof.
  induction b as [|[a e] b IH]; intros d f d' f' r r'; simpl.
  - intros [= <- <-] [= <- <-] H. split; [reflexivity|exact H].
  - destruct (eval env e) as [v|x].
    + intros Hd Hf H. apply (IH _ _ _ _ _ _ Hd Hf).
      intros a0. rewrite !get_set. destruct (String.eqb a0 a); [reflexivity|apply H].
    + intros [= <- <-] [= <- <-] H. split; [reflexivity|exact H].
Qed.

Lemma new_Ok_inv k d v :
  new k d = Ok v ->
  exists fresh,
    v = VObj (k_name k) fresh
    /\ bind_args (init_name k) (k_params k) d = Ok (bound (k_params k) d)
    /\ exec_body (bound (k_params k) d) (k_body k) [] = (fresh, None).
Proof.
  rewrite new_unfold.
  destruct (bind_args (init_name k) (k_params k) d) as [env|e] eqn:Hb; [|discriminate].
  apply bind_args_matches in Hb as [_ ->].
  destruct (exec_body (bound (k_params k) d) (k_body k) []) as [fresh [x|]] eqn:He;
    [discriminate|].
  intros [= <-]. exists fresh. auto.
Qed.

Lemma init_valid k l o d fresh s :
  heap s !! l = Some o ->
  new k d = Ok (VObj (k_name k) fresh) ->
  exists dd,
    init k l d s
    = (Ok tt, State (<[l := Obj (o_class o) dd]> (heap s)) (instances s)
                    (trace s ++ [EvInit (cid k)]))
    /\ (forall a, get a dd
                  = match get a fresh with Some v => Some v | None => get a (o_dict o) end).
Proof.
  intros Ho Hn. apply new_Ok_inv in Hn as (fresh' & [= <-] & Hb & He).
  destruct (exec_body (bound (k_params k) d) (k_body k) (o_dict o)) as [dd r] eqn:Hd.
  destruct (exec_body_over _ _ (o_dict o) _ _ _ _ _ _ Hd He) as [-> Hget].
  { intros a. reflexivity. }
  exists dd. split; [|exact Hget].
  unfold init. rewrite Hb, Ho, Hd. reflexivity.
Qed.

(** A reload is [__init__] on the keywords of its source, when the source
    gives keywords. *)
Lemma reload_mapping (isfile : string -> bool) (open_load : string -> result value)
    k l src d s :
  mapping_of isfile open_load src = Some d ->
  exists t,
    reload isfile open_load k l src s
    = try_except_TypeError (origin_of src) (init k l d) (State (heap s) (instances s) t).
Proof.
  unfold mapping_of. destruct src as [v|f]; simpl.
  - intros Hk. exists (trace s). rewrite state_eta. apply reload_from_dict_kwargs, Hk.
  - destruct (isfile f) eqn:Hf; [|discriminate].
    destruct (open_load f) as [v|e] eqn:Hl; [|discriminate].
    intros Hk. exists (trace s ++ [EvLoad f]).
    unfold reload_from_file. rewrite Hf, Hl. simpl. unfold try_except_TypeError.
    rewrite (init_with_kwargs _ _ _ _ _ Hk). reflexivity.
Qed.

(** C3: for an instance [o] at [l] and a source holding a mapping [d]
    from which the constructor of [k] builds the fields [fresh], reload
    returns, and afterwards the heap has the same locations, [l] still
    holds an instance of the class of [o], each field of [fresh] has at
    [l] the value it has in [fresh] (so when [o] had no field besides
    those, the fields at [l] are those of [fresh]), every other location
    holds what it held, and the registry is what it was. *)
Theorem reload_keeps_identity_and_takes_values
    (isfile : string -> bool) (open_load : string -> result value)
    k l o src d fresh s :
  heap s !! l = Some o ->
  mapping_of isfile open_load src = Some d ->
  new k d = Ok (VObj (k_name k) fresh) ->
  exists s' o',
    reload isfile open_load k l src s = (Ok tt, s')
    /\ heap s' !! l = Some o'
    /\ o_class o' = o_class o
    /\ (forall a v, get a fresh = Some v -> get a (o_dict o') = Some v)
    /\ ((forall a, get a fresh = None -> get a (o_dict o) = None) ->
        forall a, get a (o_dict o') = get a fresh)
    /\ length (heap s') = length (heap s)
    /\ (forall l', l' <> l -> heap s' !! l' = heap s !! l')
    /\ instances s' = instances s.
Proof.
  intros Ho Hsrc Hn.
  assert (Hlt : (l < length (heap s))%nat) by (eapply lookup_lt_Some, Ho).
  destruct (reload_mapping isfile open_load k l src d s Hsrc) as [t ->].
  set (s1 := State (heap s) (instances s) t).
  destruct (init_valid k l o d fresh s1 Ho Hn) as (dd & Hi & Hget).
  eexists _, (Obj (o_class o) dd).
  split; [|split; [|split; [|split; [|split; [|split; [|split]]]]]].
  - apply try_except_Ok. exact Hi.
  - simpl. apply list_lookup_insert_eq. exact Hlt.
  - reflexivity.
  - intros a v Ha. simpl. rewrite Hget, Ha. reflexivity.
  - intros Hno a. simpl. rewrite Hget.
    destruct (get a fresh) eqn:Ha; [reflexivity|apply Hno, Ha].
  - simpl. apply length_insert.
  - intros l' Hne. simpl. apply list_lookup_insert_ne. congruence.
  - reflexivity.
Qed.

Lemma reload_witness :
  heap loaded !! 0%nat = Some (Obj (cid Config) (bound (k_params Config) x_8080))
  /\ mapping_of (fun _ => true) (fun _ => Ok (dictv y_1_5)) (FromFile "new.yml") = Some y_1_5
  /\ new Config y_1_5 = Ok (VObj (k_name Config) y_1_5)
  /\ exists s' o',
      reload (fun _ => true) (fun _ => Ok (dictv y_1_5)) Config 0%nat (FromFile "new.yml") loaded
      = (Ok tt, s')
      /\ heap s' !! 0%nat = Some o'
      /\ o_class o' = cid Config
      /\ (forall a v, get a y_1_5 = Some v -> get a (o_dict o') = Some v)
      /\ ((forall a, get a y_1_5 = None -> get a (bound (k_params Config) x_8080) = None) ->
          forall a, get a (o_dict o') = get a y_1_5)
      /\ length (heap s') = length (heap loaded)
      /\ (forall l', l' <> 0%nat -> heap s' !! l' = heap loaded !! l')
      /\ instances s' = instances loaded.
Proof.
  split; [reflexivity|]. split; [reflexivity|]. split; [reflexivity|].
  exact (reload_keeps_identity_and_takes_values
           (fun _ => true) (fun _ => Ok (dictv y_1_5)) Config 0%nat
           (Obj (cid Config) (bound (k_params Config) x_8080)) (FromFile "new.yml")
           y_1_5 y_1_5 loaded eq_refl eq_refl eq_refl).
Defined.

(** ** Induction on classes *)

Lemma klass_nested_ind (P : klass -> Prop) :
  (forall i m n ps b,
      Forall (fun ae => match snd ae with EParam _ => True | ENew k' _ => P k' end) b ->
      P (Klass i m n ps b)) ->
  forall k, P k.
Proof.
  intros H. fix IH 1. intros [i m n ps b]. apply H.
  induction b as [|[a e] b IHb]; constructor; [|exact IHb].
  destruct e as [p|k' p]; simpl; [exact I|apply IH].
Qed.

(** ** What a constructor accepts *)

Lemma get_bound ps d p :
  mem p (keys ps) = true -> exists v, get p (bound ps d) = Some v.
Proof.
  induction ps as [|[q dflt] ps IH]; simpl; [discriminate|].
  destruct (String.eqb p q); simpl; [eauto|exact IH].
Qed.

Lemma accepts_unfold i m n ps b d :
  accepts (Klass i m n ps b) d = matches ps d && forallb (sub_ok (bound ps d)) b.
Proof. reflexivity. Qed.

(** On a well-formed class, [accepts] decides whether the constructor
    returns, and when it does not, what it raises is a [TypeError]. *)
Lemma new_accepts k :
  well_formed k = true ->
  forall d,
    if accepts k d
    then exists fresh, new k d = Ok (VObj (k_name k) fresh)
    else exists e, new k d = Raise e /\ e_class e = TypeError.
Proof.
  induction k as [i m n ps b IHb] using klass_nested_ind.
  intros Hwf d. simpl in Hwf. apply andb_prop in Hwf as [Hself Hwfb].
  apply negb_true_iff in Hself.
  rewrite new_unfold, accepts_unfold. simpl k_params. simpl k_body. simpl k_name.
  destruct (matches ps d) eqn:Hm; simpl.
  2:{ destruct (bind_args_mismatch (init_name (Klass i m n ps b)) _ _ Hm) as [e He].
      simpl in He. rewrite He. exists e. split; [reflexivity|].
      eapply bind_args_TypeError, He. }
  rewrite (bind_args_Ok _ _ _ Hself Hm).
  assert (Hexec : forall d0,
             if forallb (sub_ok (bound ps d)) b
             then exists dd, exec_body (bound ps d) b d0 = (dd, None)
             else exists dd e, exec_body (bound ps d) b d0 = (dd, Some e)
                               /\ e_class e = TypeError).
  { clear Hm. induction b as [|[a e] b IH]; intros d0; simpl; [eauto|].
    apply Forall_cons in IHb as [IHe IHb]. apply andb_prop in Hwfb as [Hwfe Hwfb].
    specialize (IH IHb Hwfb). simpl in IHe, Hwfe.
    destruct e as [p|k' p]; unfold sub_ok at 1; simpl.
    - destruct (get_bound ps d p Hwfe) as [v ->]. apply IH.
    - apply andb_prop in Hwfe as [Hp Hwf'].
      destruct (get_bound ps d p Hp) as [v ->].
      destruct (kwargs v) as [kw|] eqn:Hk.
      + rewrite (unpack_kwargs _ _ _ Hk).
        specialize (IHe Hwf' kw). destruct (accepts k' kw); simpl.
        * destruct IHe as [fresh ->]. apply IH.
        * destruct IHe as (x & -> & Hx). eexists _, _. split; [reflexivity|exact Hx].
      + destruct (unpack_refused (call_name k') v Hk) as [msg ->]. simpl.
        eexists _, _. split; reflexivity. }
  specialize (Hexec []). destruct (forallb (sub_ok (bound ps d)) b).
  - destruct Hexec as [dd ->]. eauto.
  - destruct Hexec as (dd & e & -> & He). eauto.
Qed.

(** ** The classes of the docstring *)

Example ConfigurationData_loads :
  exists o,
    load_from_dict ConfigurationData
      (dictv [("param1", VInt 1); ("param2", VStr "a");
              ("subconf", dictv [("param3", VInt 3); ("param4", VBool true)])]) initial
    = (Ok 0%nat, State [o] {[ cid ConfigurationData := 0%nat ]} [EvInit (cid ConfigurationData)])
    /\ obj_repr o
       = "ConfigurationData(param1=1, param2='a', subconf=_SubConfig(param3=3, param4=True))"%string.
Proof. eexists. split; vm_compute; reflexivity. Qed.

Example ConfigurationData_nested_key_missing :
  exists msg,
    load_from_dict ConfigurationData
      (dictv [("param1", VInt 1); ("param2", VStr "a");
              ("subconf", dictv [("param3", VInt 3)])])
      initial
    = (Raise (Exn ConfigFileParamError msg),
       State [] ∅ [EvInit (cid ConfigurationData)])
    /\ contains "_SubConfig.__init__() missing 1 required positional argument: 'param4'" msg
       = true.
Proof. eexists. split; vm_compute; reflexivity. Qed.

Example ConfigurationData_nested_not_a_mapping :
  exists msg,
    load_from_dict ConfigurationData
      (dictv [("param1", VInt 1); ("param2", VStr "a"); ("subconf", VInt 5)]) initial
    = (Raise (Exn ConfigFileParamError msg),
       State [] ∅ [EvInit (cid ConfigurationData)])
    /\ contains "__main__._SubConfig() argument after ** must be a mapping, not int" msg
       = true.
Proof. eexists. split; vm_compute; reflexivity. Qed.

Example ConfigurationData_nested_key_not_a_string :
  exists msg,
    load_from_dict ConfigurationData
      (dictv [("param1", VInt 1); ("param2", VStr "a");
              ("subconf", VDict [(VStr "param3", VInt 3); (VInt 4, VInt 4)])]) initial
    = (Raise (Exn ConfigFileParamError msg),
       State [] ∅ [EvInit (cid ConfigurationData)])
    /\ contains "keywords must be strings" msg = true.
Proof. eexists. split; vm_compute; reflexivity. Qed.

Example Config_two_missing :
  bind_args (init_name Config) (k_params Config) []
  = Raise (type_error
             "Config.__init__() missing 2 required positional arguments: 'host' and 'port'").
Proof. reflexivity. Qed.

Example repr_str_quotes :
  repr_str "it's" = String dquote ("it's" +:+ String dquote "")
  /\ repr_str "x" = "'x'"%string
  /\ repr (VList [VInt (-5); VNone; VDict [(VStr "k", VStr "v"); (VInt 1, VBool true)]])
     = "[-5, None, {'k': 'v', 1: True}]"%string.
Proof. repeat split; vm_compute; reflexivity. Qed.

(** ** The first load validates *)

(** A load is the call of the class on what its source holds. *)
Lemma load_content (isfile : string -> bool) (open_load : string -> result value) k src v s :
  content_of isfile open_load src = Some v ->
  exists t,
    load isfile open_load k src s
    = try_except_TypeError (origin_of src) (call_with k v)
        (State (heap s) (instances s) t).
Proof.
  destruct src as [v0|f]; simpl.
  - intros [= ->]. exists (trace s). rewrite state_eta. reflexivity.
  - destruct (isfile f) eqn:Hf; [|discriminate].
    destruct (open_load f) as [v0|e] eqn:Hl; [|discriminate].
    intros [= ->]. exists (trace s ++ [EvLoad f]).
    unfold from_file. rewrite Hf, Hl. reflexivity.
Qed.

Lemma quoted_cls_in_clash : occurs (quoted "cls") cls_clash.
Proof.
  exists "Singleton.__call__() got multiple values for argument "%string, ""%string.
  reflexivity.
Qed.

Lemma accepts_matches k d : accepts k d = true -> matches (k_params k) d = true.
Proof.
  destruct k as [i m n ps b]. rewrite accepts_unfold. intros H.
  apply andb_prop in H as [H _]. exact H.
Qed.

Lemma matches_keys ps d key :
  matches ps d = true -> In key (keys d) -> In key (keys ps).
Proof.
  unfold matches. intros H Hin. apply andb_prop in H as [_ H].
  rewrite forallb_forall in H. apply mem_In, H, Hin.
Qed.

(** C2, as the code has it.  For a well-formed class none of whose
    parameters is named [cls], with no registered instance, and a source
    holding the value [v]:
    - when [v] is a dictionary with string keys that has the structure of
      the class, the load returns a new instance whose fields are those
      the constructor builds from it, and registers it;
    - otherwise it raises a [ConfigFileParamError] whose message has the
      origin (the path of the file, or the label [dict variable]); the
      heap and the registry are left as they were; and when the keys are
      strings and do not match the parameters (a key that is no
      parameter, a required parameter without key), the message has the
      name of one of them between quotes. *)
Theorem first_load_validates
    (isfile : string -> bool) (open_load : string -> result value) k src v s :
  well_formed k = true ->
  mem "cls" (keys (k_params k)) = false ->
  instances s !! cid k = None ->
  content_of isfile open_load src = Some v ->
  if valid k v
  then
    exists d fresh s',
      kwargs v = Some d
      /\ new k d = Ok (VObj (k_name k) fresh)
      /\ load isfile open_load k src s = (Ok (length (heap s)), s')
      /\ heap s' = heap s ++ [Obj (cid k) fresh]
      /\ instances s' = <[cid k := length (heap s)]> (instances s)
  else
    exists msg s',
      load isfile open_load k src s = (Raise (Exn ConfigFileParamError msg), s')
      /\ occurs (origin_of src) msg
      /\ heap s' = heap s
      /\ instances s' = instances s
      /\ (forall d, kwargs v = Some d -> matches (k_params k) d = false ->
          exists name, In name (offending (k_params k) d) /\ occurs (quoted name) msg).
Proof.
  intros Hwf Hnocls Hl Hsrc.
  destruct (load_content isfile open_load k src v s Hsrc) as [t ->].
  set (s1 := State (heap s) (instances s) t).
  assert (Hself : mem "self" (keys (k_params k)) = false).
  { destruct k as [i m n ps b]. simpl in Hwf. apply andb_prop in Hwf as [Hself _].
    apply negb_true_iff in Hself. exact Hself. }
  unfold valid. destruct (kwargs v) as [d|] eqn:Hk.
  2:{ destruct (call_with_refused k v s1 Hk) as [m Hc].
      rewrite (try_except_Raise _ _ _ _ _ Hc). simpl.
      eexists _, s1. split; [reflexivity|].
      destruct (type_error_response_says (origin_of src) m) as (_ & _ & Ho).
      split; [exact Ho|]. split; [reflexivity|]. split; [reflexivity|].
      intros d Hd. discriminate Hd. }
  unfold try_except_TypeError. rewrite (call_with_kwargs _ _ _ _ Hk).
  change (match Singleton_call k d s1 with
          | (Raise (Exn TypeError msg), s') =>
              (Raise (_type_error_response (origin_of src) msg), s')
          | r => r
          end)
    with (try_except_TypeError (origin_of src) (Singleton_call k d) s1).
  destruct (mem "cls" (keys d)) eqn:Hcls.
  { assert (Hin : In "cls"%string (unexpected (k_params k) d)).
    { apply In_unexpected. split; [apply mem_In, Hcls|apply mem_false, Hnocls]. }
    assert (Hacc : accepts k d = false).
    { destruct (accepts k d) eqn:Ha; [|reflexivity].
      apply accepts_matches in Ha. apply In_unexpected in Hin as [Hin Hnot].
      exfalso. apply Hnot. eapply matches_keys; eassumption. }
    rewrite Hacc.
    rewrite (try_except_Raise _ _ _ _ _ (Singleton_call_cls k d s1 Hcls)). simpl.
    eexists _, s1. split; [reflexivity|].
    destruct (type_error_response_says (origin_of src) cls_clash) as (_ & Hm & Ho).
    split; [exact Ho|]. split; [reflexivity|]. split; [reflexivity|].
    intros d0 [= <-] _. exists "cls"%string. split.
    - unfold offending. apply in_or_app. left. exact Hin.
    - eapply occurs_trans; [apply quoted_cls_in_clash|exact Hm]. }
  pose proof (new_accepts k Hwf d) as Hnew.
  destruct (bind_args (init_name k) (k_params k) d) as [env|e] eqn:Hb.
  - pose proof Hb as Hb'. apply bind_args_matches in Hb' as [Hm ->].
    rewrite new_unfold, Hb in Hnew.
    pose proof (Singleton_call_first_body k d s1 _ Hl Hcls Hb) as Hc.
    destruct (accepts k d).
    + destruct Hnew as [fresh Hnew].
      destruct (exec_body (bound (k_params k) d) (k_body k) []) as [dd [x|]] eqn:He;
        [discriminate|].
      injection Hnew as ->. rewrite (try_except_Ok _ _ _ _ _ Hc).
      exists d, fresh, (State (heap s ++ [Obj (cid k) fresh])
                              (<[cid k := length (heap s)]> (instances s))
                              (t ++ [EvInit (cid k)])).
      rewrite new_unfold, Hb, He. repeat split.
    + destruct Hnew as (e & Hnew & He).
      destruct (exec_body (bound (k_params k) d) (k_body k) []) as [dd [x|]];
        [|discriminate].
      injection Hnew as ->. rewrite (try_except_Raise _ _ _ _ _ Hc).
      destruct e as [c msg]. simpl in He. subst c. simpl.
      eexists _, _. split; [reflexivity|].
      destruct (type_error_response_says (origin_of src) msg) as (_ & _ & Ho).
      split; [exact Ho|]. split; [reflexivity|]. split; [reflexivity|].
      intros d0 [= <-] Hm0. rewrite Hm in Hm0. discriminate.
  - pose proof (bind_args_TypeError _ _ _ _ Hb) as He.
    destruct (bind_args_names _ _ _ _ Hself Hb) as (name & Hin & Hocc).
    assert (Hacc : accepts k d = false).
    { destruct (accepts k d) eqn:Ha; [|reflexivity].
      apply accepts_matches in Ha.
      rewrite (bind_args_Ok _ _ _ Hself Ha) in Hb. discriminate. }
    rewrite Hacc.
    rewrite (try_except_Raise _ _ _ _ _ (Singleton_call_first_bind_fails k d s1 e Hl Hcls Hb)).
    destruct e as [c msg]. simpl in He. subst c. simpl.
    eexists _, s1. split; [reflexivity|].
    destruct (type_error_response_says (origin_of src) msg) as (_ & Hm & Ho).
    split; [exact Ho|]. split; [reflexivity|]. split; [reflexivity|].
    intros d0 [= <-] _. exists name. split; [exact Hin|].
    eapply occurs_trans; [exact Hocc|exact Hm].
Qed.

Lemma first_load_validates_witness :
  well_formed Config = true
  /\ mem "cls" (keys (k_params Config)) = false
  /\ instances initial !! cid Config = None
  /\ content_of (fun _ => true) (fun _ => Ok (dictv x_8080)) (FromFile "conf.yml")
     = Some (dictv x_8080)
  /\ exists d fresh s',
      kwargs (dictv x_8080) = Some d
      /\ new Config d = Ok (VObj (k_name Config) fresh)
      /\ load (fun _ => true) (fun _ => Ok (dictv x_8080)) Config (FromFile "conf.yml") initial
         = (Ok (length (heap initial)), s')
      /\ heap s' = heap initial ++ [Obj (cid Config) fresh]
      /\ instances s' = <[cid Config := length (heap initial)]> (instances initial).
Proof.
  split; [reflexivity|]. split; [reflexivity|]. split; [reflexivity|]. split; [reflexivity|].
  exact (first_load_validates (fun _ => true) (fun _ => Ok (dictv x_8080)) Config
           (FromFile "conf.yml") (dictv x_8080) initial eq_refl eq_refl eq_refl eq_refl).
Defined.

(** C2 as stated fails.  With [Config] loaded, a mapping with the
    unknown key [extra] is not refused: the load returns the registered
    instance.  In a fresh process, where the same mapping is refused, the
    label of the message is [dict variable], not [mapping variable].  And
    a mapping with a key that is not a string is refused with a message
    that names no parameter. *)
Lemma load_of_loaded_class_accepts_extra_key :
  matches (k_params Config) x_8080_extra = false
  /\ load_from_dict Config (dictv x_8080_extra) loaded = (Ok 0%nat, loaded)
  /\ (exists msg,
         load_from_dict Config (dictv x_8080_extra) initial
         = (Raise (Exn ConfigFileParamError msg), initial)
         /\ contains "extra" msg = true
         /\ contains "dict variable" msg = true
         /\ contains "mapping variable" msg = false)
  /\ load_from_dict Config (VDict [(VStr "host", VStr "x"); (VInt 8080, VStr "port")]) initial
     = (Raise (_type_error_response "dict variable" "keywords must be strings"), initial).
Proof.
  split; [reflexivity|]. split; [vm_compute; reflexivity|]. split.
  - eexists. split; [vm_compute; reflexivity|].
    split; [|split]; vm_compute; reflexivity.
  - vm_compute. reflexivity.
Qed.

(** ** Textual representation *)

Lemma keys_set a v d : keys (set a v d) = add_key (keys d) a.
Proof.
  unfold add_key. induction d as [|[k0 v0] d IH]; simpl; [reflexivity|].
  destruct (String.eqb_spec a k0) as [->|Hne]; simpl; [reflexivity|].
  rewrite IH. destruct (mem a (keys d)); reflexivity.
Qed.

Lemma keys_exec_body env b :
  forall d d', exec_body env b d = (d', None) ->
               keys d' = fold_left add_key (keys b) (keys d).
Proof.
  induction b as [|[a e] b IH]; intros d d'; simpl.
  - intros [= <-]. reflexivity.
  - destruct (eval env e) as [v|x]; [|discriminate].
    intros H. rewrite (IH _ _ H), keys_set. reflexivity.
Qed.

Lemma new_declared_attrs k d fresh :
  new k d = Ok (VObj (k_name k) fresh) -> keys fresh = declared_attrs k.
Proof.
  intros H. apply new_Ok_inv in H as (fresh' & [= <-] & _ & He).
  apply keys_exec_body in He. exact He.
Qed.

Lemma first_load_fields k v s l s' :
  instances s !! cid k = None ->
  load_from_dict k v s = (Ok l, s') ->
  exists d fresh, kwargs v = Some d
                  /\ new k d = Ok (VObj (k_name k) fresh)
                  /\ heap s' !! l = Some (Obj (cid k) fresh).
Proof.
  intros Hl H. apply try_except_Ok_inv in H. apply call_with_Ok_inv in H as (d & Hk & H).
  exists d.
  pose proof (Singleton_call_Ok_no_cls _ _ _ _ _ H) as Hcls.
  destruct (bind_args (init_name k) (k_params k) d) as [env|e] eqn:Hb.
  - rewrite (Singleton_call_first_body _ _ _ _ Hl Hcls Hb) in H.
    rewrite new_unfold, Hb.
    destruct (exec_body env (k_body k) []) as [dd [x|]]; [discriminate|].
    injection H as <- <-. exists dd. split; [exact Hk|]. split; [reflexivity|].
    simpl. apply lookup_alloc.
  - rewrite (Singleton_call_first_bind_fails _ _ _ _ Hl Hcls Hb) in H. discriminate.
Qed.

(** C8: an instance, and a [SubConfig] record, renders as the name of its
    class, then between parentheses its fields as [name=repr(value)]
    separated by a comma and a space, in the order of [__dict__]; for what
    a constructor has built (a record, or the instance of a first load),
    that order is the order in which [__init__] declares the attributes;
    and the instance with [host="x"], [port=8080] renders as
    [Config(host='x', port=8080)]. *)
Theorem repr_is_class_name_and_fields_in_order :
  (forall o,
      obj_repr o
      = snd (o_class o) +:+ "("
        +:+ join ", " (map (fun kv => fst kv +:+ "=" +:+ repr (snd kv)) (o_dict o)) +:+ ")")
  /\ (forall c attrs,
         repr (VObj c attrs)
         = c +:+ "("
           +:+ join ", " (map (fun kv => fst kv +:+ "=" +:+ repr (snd kv)) attrs) +:+ ")")
  /\ (forall k d fresh,
         new k d = Ok (VObj (k_name k) fresh) -> keys fresh = declared_attrs k)
  /\ (forall k v s l s',
         instances s !! cid k = None ->
         load_from_dict k v s = (Ok l, s') ->
         exists o, heap s' !! l = Some o
                   /\ snd (o_class o) = k_name k
                   /\ keys (o_dict o) = declared_attrs k)
  /\ obj_repr (Obj (cid Config) [("host", VStr "x"); ("port", VInt 8080)])
     = "Config(host='x', port=8080)"%string.
Proof.
  split; [reflexivity|]. split; [reflexivity|]. split; [apply new_declared_attrs|].
  split; [|vm_compute; reflexivity].
  intros k v s l s' Hl H.
  destruct (first_load_fields _ _ _ _ _ Hl H) as (d & fresh & _ & Hn & Ho).
  exists (Obj (cid k) fresh). split; [exact Ho|]. split; [reflexivity|].
  simpl. eapply new_declared_attrs, Hn.
Qed.

Lemma repr_of_loaded_Config_witness :
  instances initial !! cid Config = None
  /\ load_from_dict Config (dictv x_8080) initial = (Ok 0%nat, loaded)
  /\ exists o, heap loaded !! 0%nat = Some o
               /\ snd (o_class o) = k_name Config
               /\ keys (o_dict o) = declared_attrs Config.
Proof.
  split; [reflexivity|]. split; [vm_compute; reflexivity|].
  destruct repr_is_class_name_and_fields_in_order as (_ & _ & _ & H & _).
  apply (H Config (dictv x_8080) initial 0%nat loaded); [reflexivity|vm_compute; reflexivity].
Defined.

End ConfigToolsSpec.

Module SchedulerSpec.
Import Scheduler.

(** ** The time slept *)

Lemma td_seconds_range delta : 0 <= td_seconds delta < seconds_per_day.
Proof.
  unfold td_seconds, seconds_per_day, us_per_second.
  pose proof (Z.mod_pos_bound delta (86400 * 1000000) ltac:(lia)) as Hm.
  split.
  - apply Z.div_pos; lia.
  - apply Z.div_lt_upper_bound; lia.
Qed.

(** Within a day the seconds field is the whole duration. *)
Lemma td_seconds_within_a_day delta :
  0 <= delta < seconds_per_day * us_per_second ->
  td_seconds delta = td_total_seconds delta.
Proof.
  intros H. unfold td_seconds, td_total_seconds. rewrite Z.mod_small by exact H. reflexivity.
Qed.

(** ** [sleep] *)

(** A call of [sleep] is written in the log, whether it returns or not. *)
Lemma sleep_log os z w : log (snd (sleep os z w)) = log w ++ [EvSleep z].
Proof.
  unfold sleep.
  destruct ((z <? - max_sleep) || (max_sleep <? z)); [reflexivity|].
  destruct (z <? 0); [reflexivity|]. destruct (os w z); reflexivity.
Qed.

(** A duration within the limit that the operating system accepts is
    slept. *)
Lemma sleep_accepted os z w :
  0 <= z <= max_sleep -> os w z = false ->
  sleep os z w = (Returned, World (now w + z * us_per_second) (log w ++ [EvSleep z])).
Proof.
  intros Hz Hos. unfold sleep.
  destruct (Z.ltb_spec z (- max_sleep)) as [H|_]; [unfold max_sleep in *; lia|].
  destruct (Z.ltb_spec max_sleep z) as [H|_]; [lia|]. simpl.
  destruct (Z.ltb_spec z 0) as [H|_]; [lia|]. rewrite Hos. reflexivity.
Qed.


(** A turn in which the function returns ends with one call of [sleep],
    for the period less the seconds field of the time the run took, and
    never for less than zero. *)
Lemma turn_sleeps os minutes func w w1 :
  func (World (now w) (log w ++ [EvCall])) = (Returned, w1) ->
  exists wait w2,
    turn os minutes func w = sleep os wait w2
    /\ wait = Z.max 0 (minutes * 60 - td_seconds (now w1 - now w))
    /\ 0 <= wait
    /\ now w2 = now w1
    /\ exists added, log w2 = log w1 ++ added
                     /\ List.filter is_sleep added = []
                     /\ List.filter is_call added = [].
Proof.
  intros Hf. unfold turn. rewrite Hf.
  set (time_left := minutes * 60 - td_seconds (now w1 - now w)).
  destruct (Z.gtb_spec time_left 0) as [Hpos|Hneg].
  - exists time_left. destruct (Z.eqb_spec time_left 0) as [H0|_]; [lia|].
    eexists. split; [reflexivity|]. split; [lia|]. split; [lia|]. split; [reflexivity|].
    eexists. split; [reflexivity|]. split; reflexivity.
  - exists 0. simpl. exists w1. split; [reflexivity|]. split; [lia|]. split; [lia|].
    split; [reflexivity|]. exists []. split; [symmetry; apply app_nil_r|]. split; reflexivity.
Qed.

(** ** The loop *)

(** An exception of the function leaves the loop as it is, before any
    sleep. *)
Lemma inner_stops_on_exception os minutes func n w e w1 :
  func (World (now w) (log w ++ [EvCall])) = (Raised e, w1) ->
  inner os minutes func (S n) w = (Some e, w1).
Proof. intros Hf. simpl. unfold turn. rewrite Hf. reflexivity. Qed.

(** ** A run of more than a day *)

(** C9 at its failing input: with a period of 5 minutes and a function
    whose run lasts one day and ten seconds, the first turn sleeps 290
    seconds (on a platform that takes a sleep of 290 seconds), although
    the run took longer than the period and the period less the duration
    is below zero. *)
Theorem sleep_after_a_run_of_more_than_a_day (os_refuses : world -> Z -> bool) :
  (forall w, os_refuses w 290 = false) ->
  schedule_every os_refuses 5 (lasting (86410 * us_per_second)) 1 (World 0 [])
  = (None,
     World (86410 * us_per_second + 290 * us_per_second)
           [EvCall; EvDebug "run pending 290 seconds (scheduled)"; EvSleep 290])
  /\ 5 * 60 - td_total_seconds (86410 * us_per_second) < 0.
Proof.
  intros Hos. split; [|vm_compute; reflexivity].
  unfold schedule_every, inner.
  assert (Ht : turn os_refuses 5 (lasting (86410 * us_per_second)) (World 0 [])
               = sleep os_refuses 290
                   (World (86410 * us_per_second)
                          [EvCall; EvDebug "run pending 290 seconds (scheduled)"]))
    by (vm_compute; reflexivity).
  rewrite Ht, sleep_accepted; [reflexivity|unfold max_sleep; lia|apply Hos].
Qed.

Lemma sleep_after_a_run_of_more_than_a_day_witness :
  (forall w, never_refuses w 290 = false)
  /\ schedule_every never_refuses 5 (lasting (86410 * us_per_second)) 1 (World 0 [])
     = (None,
        World (86410 * us_per_second + 290 * us_per_second)
              [EvCall; EvDebug "run pending 290 seconds (scheduled)"; EvSleep 290])
  /\ 5 * 60 - td_total_seconds (86410 * us_per_second) < 0.
Proof.
  assert (H : forall w, never_refuses w 290 = false) by (intros w; reflexivity).
  split; [exact H|].
  exact (sleep_after_a_run_of_more_than_a_day never_refuses H).
Defined.

End SchedulerSpec.

(** * Further properties of [config_tools.py] *)

Module ConfigToolsExtra.
Import ConfigTools ConfigToolsSpec.

(** ** What a call can do to the heap and the registry *)

Lemma Singleton_call_outcome k d s r s' :
  Singleton_call k d s = (r, s') ->
  match r with
  | Raise _ => heap s' = heap s /\ instances s' = instances s
  | Ok l =>
      (instances s !! cid k = Some l /\ heap s' = heap s /\ instances s' = instances s)
      \/ (instances s !! cid k = None /\ l = length (heap s)
          /\ exists dd, heap s' = heap s ++ [Obj (cid k) dd]
                        /\ instances s' = <[cid k := l]> (instances s))
  end.
Proof.
  intros Hc. destruct (mem "cls" (keys d)) eqn:Hcls.
  { rewrite (Singleton_call_cls _ _ _ Hcls) in Hc. injection Hc as <- <-. auto. }
  destruct (instances s !! cid k) as [l|] eqn:Hl.
  { rewrite (Singleton_call_cached _ _ _ _ Hl Hcls) in Hc. injection Hc as <- <-. auto. }
  destruct (bind_args (init_name k) (k_params k) d) as [env|e] eqn:Hb.
  - rewrite (Singleton_call_first_body _ _ _ _ Hl Hcls Hb) in Hc.
    destruct (exec_body env (k_body k) []) as [dd [x|]]; injection Hc as <- <-; simpl.
    + auto.
    + right. split; [reflexivity|]. split; [reflexivity|]. exists dd. auto.
  - rewrite (Singleton_call_first_bind_fails _ _ _ _ Hl Hcls Hb) in Hc.
    injection Hc as <- <-. auto.
Qed.

Lemma init_outcome k l d s r s' :
  init k l d s = (r, s') ->
  instances s' = instances s
  /\ (heap s' = heap s
      \/ exists o env,
          heap s !! l = Some o
          /\ bind_args (init_name k) (k_params k) d = Ok env
          /\ heap s' = <[l := Obj (o_class o) (fst (exec_body env (k_body k) (o_dict o)))]>
                         (heap s)).
Proof.
  unfold init. destruct (bind_args _ _ d) as [env|e] eqn:Hb; [|intros [= _ <-]; auto].
  destruct (heap s !! l) as [o|] eqn:Ho; [|intros [= _ <-]; auto].
  destruct (exec_body env (k_body k) (o_dict o)) as [dd x] eqn:He.
  intros [= _ <-]. simpl. split; [reflexivity|]. right. exists o, env.
  rewrite He. auto.
Qed.

Lemma call_with_outcome k v s r s' :
  call_with k v s = (r, s') ->
  match r with
  | Raise _ => heap s' = heap s /\ instances s' = instances s
  | Ok l =>
      (instances s !! cid k = Some l /\ heap s' = heap s /\ instances s' = instances s)
      \/ (instances s !! cid k = None /\ l = length (heap s)
          /\ exists dd, heap s' = heap s ++ [Obj (cid k) dd]
                        /\ instances s' = <[cid k := l]> (instances s))
  end.
Proof.
  intros H. apply call_with_inv in H as [(d & _ & H)|(_ & -> & msg & ->)]; [|auto].
  eapply Singleton_call_outcome, H.
Qed.

Lemma init_with_outcome k l v s r s' :
  init_with k l v s = (r, s') ->
  instances s' = instances s
  /\ (heap s' = heap s
      \/ exists o d env,
          heap s !! l = Some o
          /\ kwargs v = Some d
          /\ bind_args (init_name k) (k_params k) d = Ok env
          /\ heap s' = <[l := Obj (o_class o) (fst (exec_body env (k_body k) (o_dict o)))]>
                         (heap s)).
Proof.
  intros H. apply init_with_inv in H as [(d & Hk & H)|(_ & -> & _)]; [|auto].
  apply init_outcome in H as [Hi [Hh|(o & env & Ho & Hb & Hh)]]; split; auto.
  right. exists o, d, env. auto.
Qed.

Section Outcomes.

Variable isfile : string -> bool.
Variable open_load : string -> result value.

Lemma load_outcome k src s r s' :
  load isfile open_load k src s = (r, s') ->
  match r with
  | Raise _ => heap s' = heap s /\ instances s' = instances s
  | Ok l =>
      (instances s !! cid k = Some l /\ heap s' = heap s /\ instances s' = instances s)
      \/ (instances s !! cid k = None /\ l = length (heap s)
          /\ exists dd, heap s' = heap s ++ [Obj (cid k) dd]
                        /\ instances s' = <[cid k := l]> (instances s))
  end.
Proof.
  destruct src as [v|f]; simpl.
  - intros H. apply try_except_instances in H as (r0 & H & Hr).
    apply call_with_outcome in H.
    destruct r, r0; try contradiction; subst; exact H.
  - unfold from_file. destruct (isfile f); simpl; [|intros [= <- <-]; auto].
    destruct (open_load f) as [content|e]; [|intros [= <- <-]; auto].
    intros H. apply try_except_instances in H as (r0 & H & Hr).
    apply call_with_outcome in H. simpl in H.
    destruct r, r0; try contradiction; subst; exact H.
Qed.

Lemma reload_outcome k l src s r s' :
  reload isfile open_load k l src s = (r, s') ->
  instances s' = instances s
  /\ (heap s' = heap s
      \/ exists o d env,
          heap s !! l = Some o
          /\ mapping_of isfile open_load src = Some d
          /\ bind_args (init_name k) (k_params k) d = Ok env
          /\ heap s' = <[l := Obj (o_class o) (fst (exec_body env (k_body k) (o_dict o)))]>
                         (heap s)).
Proof.
  unfold mapping_of. destruct src as [v|f]; simpl.
  - intros H. apply try_except_instances in H as (r0 & H & _).
    apply init_with_outcome in H. exact H.
  - unfold reload_from_file. destruct (isfile f); simpl; [|intros [= <- <-]; auto].
    destruct (open_load f) as [content|e]; [|intros [= <- <-]; auto].
    intros H. apply try_except_instances in H as (r0 & H & _).
    apply init_with_outcome in H. exact H.
Qed.

End Outcomes.

(** ** Once loaded, always the same instance *)

Section Stability.

Variable isfile : string -> bool.
Variable open_load : string -> result value.

Lemma step_keeps_entries c0 s c l :
  instances s !! c = Some l -> instances (step isfile open_load c0 s) !! c = Some l.
Proof.
  intros Hc. destruct c0 as [k src|k|k l0 src]; simpl.
  - destruct (load isfile open_load k src s) as [r s'] eqn:Hl. simpl.
    apply load_outcome in Hl. destruct r as [l'|e].
    + destruct Hl as [(_ & _ & ->)|(Hn & _ & dd & _ & ->)]; [exact Hc|].
      rewrite lookup_insert_ne; [exact Hc|]. intros <-. congruence.
    + destruct Hl as [_ ->]. exact Hc.
  - unfold instance. destruct (instances s !! cid k); exact Hc.
  - rewrite reload_instances. exact Hc.
Qed.

Lemma run_keeps_entries cs :
  forall s c l, instances s !! c = Some l ->
                instances (run isfile open_load cs s) !! c = Some l.
Proof.
  induction cs as [|c0 cs IH]; intros s c l Hc; simpl; [exact Hc|].
  apply IH, step_keeps_entries, Hc.
Qed.

(** X1: once a load of [k] has returned the instance [l], [instance]
    returns that same [l] after any further calls (loads of any class,
    failed or not, reloads, fetches), and does not change the state. *)
Theorem instance_after_load_is_stable k src s l s1 cs :
  load isfile open_load k src s = (Ok l, s1) ->
  instance k (run isfile open_load cs s1) = (Ok l, run isfile open_load cs s1).
Proof.
  intros Hl. apply load_registers in Hl.
  unfold instance. rewrite (run_keeps_entries cs _ _ _ Hl). reflexivity.
Qed.

(** X2: a call never changes an instance it is not a reload of: after a
    load of any class, a fetch, or a reload of another instance, the
    instance at [l] is where it was, with the class and the fields it had. *)
Theorem calls_leave_other_instances_alone c0 s l o :
  (forall k src, c0 <> Reload k l src) ->
  heap s !! l = Some o ->
  heap (step isfile open_load c0 s) !! l = Some o.
Proof.
  intros Hc Ho. destruct c0 as [k src|k|k l0 src]; simpl.
  - destruct (load isfile open_load k src s) as [r s'] eqn:Hl. simpl.
    apply load_outcome in Hl. destruct r as [l'|e].
    + destruct Hl as [(_ & -> & _)|(_ & _ & dd & -> & _)]; [exact Ho|].
      apply lookup_app_l_Some, Ho.
    + destruct Hl as [-> _]. exact Ho.
  - unfold instance. destruct (instances s !! cid k); exact Ho.
  - destruct (reload isfile open_load k l0 src s) as [r s'] eqn:Hr. simpl.
    apply reload_outcome in Hr as [_ [->|(o0 & d & env & _ & _ & _ & ->)]]; [exact Ho|].
    rewrite list_lookup_insert_ne; [exact Ho|].
    intros ->. apply (Hc k src). reflexivity.
Qed.

(** X3: a load that raises leaves no instance behind and registers
    nothing: the heap and the registry are what they were. *)
Theorem failed_load_leaves_nothing k src s e s' :
  load isfile open_load k src s = (Raise e, s') ->
  heap s' = heap s /\ instances s' = instances s.
Proof. intros Hl. apply load_outcome in Hl. exact Hl. Qed.


End Stability.

Lemma instance_after_load_witness :
  load (fun _ => false) (fun _ => Ok VNone) Config (FromDict (dictv x_8080)) initial
  = (Ok 0%nat, loaded)
  /\ instance Config
       (run (fun _ => false) (fun _ => Ok VNone)
            [Load Config (FromDict (dictv x_8080_extra));
             Load ConfigurationData (FromDict (dictv []));
             Reload Config 0%nat (FromDict (dictv y_1_5))] loaded)
     = (Ok 0%nat,
        run (fun _ => false) (fun _ => Ok VNone)
            [Load Config (FromDict (dictv x_8080_extra));
             Load ConfigurationData (FromDict (dictv []));
             Reload Config 0%nat (FromDict (dictv y_1_5))] loaded).
Proof.
  assert (H : load (fun _ => false) (fun _ => Ok VNone) Config (FromDict (dictv x_8080)) initial
              = (Ok 0%nat, loaded)) by (vm_compute; reflexivity).
  split; [exact H|].
  exact (instance_after_load_is_stable (fun _ => false) (fun _ => Ok VNone)
           Config (FromDict (dictv x_8080)) initial 0%nat loaded _ H).
Defined.

Lemma other_instances_witness :
  (forall k src, Load ConfigurationData (FromDict (dictv [])) <> Reload k 0%nat src)
  /\ heap loaded !! 0%nat = Some (Obj (cid Config) (bound (k_params Config) x_8080))
  /\ heap (step (fun _ => false) (fun _ => Ok VNone)
                (Load ConfigurationData (FromDict (dictv []))) loaded) !! 0%nat
     = Some (Obj (cid Config) (bound (k_params Config) x_8080)).
Proof.
  assert (H : forall k src, Load ConfigurationData (FromDict (dictv [])) <> Reload k 0%nat src)
    by (intros k src; discriminate).
  split; [exact H|]. split; [reflexivity|].
  exact (calls_leave_other_instances_alone (fun _ => false) (fun _ => Ok VNone)
           _ loaded 0%nat _ H eq_refl).
Defined.

Lemma failed_load_witness :
  load (fun _ => true) (fun _ => Ok (dictv x_8080_extra)) Config (FromFile "conf.yml") initial
  = (Raise (_type_error_response "conf.yml"
              "Config.__init__() got an unexpected keyword argument 'extra'"),
     State [] ∅ [EvLoad "conf.yml"])
  /\ heap (State [] ∅ [EvLoad "conf.yml"]) = heap initial
  /\ instances (State [] ∅ [EvLoad "conf.yml"]) = instances initial.
Proof.
  assert (H : load (fun _ => true) (fun _ => Ok (dictv x_8080_extra)) Config
                (FromFile "conf.yml") initial
              = (Raise (_type_error_response "conf.yml"
                          "Config.__init__() got an unexpected keyword argument 'extra'"),
                 State [] ∅ [EvLoad "conf.yml"])) by (vm_compute; reflexivity).
  split; [exact H|].
  exact (failed_load_leaves_nothing (fun _ => true) (fun _ => Ok (dictv x_8080_extra))
           _ _ _ _ _ H).
Defined.


(** ** Which exceptions come out *)

Lemma translated_not_TypeError origin e : e_class (translated origin e) <> TypeError.
Proof. destruct e as [[] msg]; simpl; discriminate. Qed.

Lemma try_except_Raise_inv {A} origin (m : M A) s e s' :
  try_except_TypeError origin m s = (Raise e, s') ->
  exists e0, m s = (Raise e0, s') /\ e = translated origin e0.
Proof.
  unfold try_except_TypeError. destruct (m s) as [[a|[c msg]] s0] eqn:Hm.
  - discriminate.
  - destruct c; intros [= <- <-]; eexists; split; reflexivity.
Qed.

(** X5: [load_from_dict] and [reload_from_dict] never let a [TypeError]
    out: whatever they raise has another class. *)
Theorem dict_operations_never_raise_TypeError k l v s :
  (forall e s', load_from_dict k v s = (Raise e, s') -> e_class e <> TypeError)
  /\ (forall e s', reload_from_dict k l v s = (Raise e, s') -> e_class e <> TypeError).
Proof.
  split; intros e s' H; apply try_except_Raise_inv in H as (e0 & _ & ->);
    apply translated_not_TypeError.
Qed.

(** X6: the only [TypeError] that [from_file] and [reload_from_file] can
    raise is one the loader itself raised: the deserialization is outside
    the [try], so its exceptions pass as they are. *)
Theorem file_operations_raise_TypeError_only_from_loader
    (isfile : string -> bool) (open_load : string -> result value) k l f s :
  (forall e s', from_file isfile open_load k f s = (Raise e, s') ->
                e_class e = TypeError -> open_load f = Raise e)
  /\ (forall e s', reload_from_file isfile open_load k l f s = (Raise e, s') ->
                   e_class e = TypeError -> open_load f = Raise e).
Proof.
  split; intros e s'.
  - unfold from_file. destruct (isfile f); simpl; [|intros [= <- _]; discriminate].
    destruct (open_load f) as [content|e0]; [|intros [= <- _] _; reflexivity].
    intros H Hc. apply try_except_Raise_inv in H as (e0 & _ & ->).
    exfalso. eapply translated_not_TypeError, Hc.
  - unfold reload_from_file. destruct (isfile f); simpl; [|intros [= <- _]; discriminate].
    destruct (open_load f) as [content|e0]; [|intros [= <- _] _; reflexivity].
    intros H Hc. apply try_except_Raise_inv in H as (e0 & _ & ->).
    exfalso. eapply translated_not_TypeError, Hc.
Qed.

Lemma loader_TypeError_witness :
  from_file (fun _ => true) (fun _ => Raise (type_error "bad tag")) Config "conf.yml" initial
  = (Raise (type_error "bad tag"), State [] ∅ [EvLoad "conf.yml"])
  /\ e_class (type_error "bad tag") = TypeError
  /\ (fun _ : string => @Raise value (type_error "bad tag")) "conf.yml"
     = Raise (type_error "bad tag").
Proof.
  split; [reflexivity|]. split; [reflexivity|].
  destruct (file_operations_raise_TypeError_only_from_loader
              (fun _ => true) (fun _ => Raise (type_error "bad tag")) Config 0%nat
              "conf.yml" initial) as [H _].
  exact (H _ _ eq_refl eq_refl).
Defined.

Lemma dict_operations_witness :
  load_from_dict Config (dictv x_8080_extra) initial
  = (Raise (_type_error_response "dict variable"
              "Config.__init__() got an unexpected keyword argument 'extra'"), initial)
  /\ e_class (_type_error_response "dict variable"
                "Config.__init__() got an unexpected keyword argument 'extra'") <> TypeError.
Proof.
  assert (H : load_from_dict Config (dictv x_8080_extra) initial
              = (Raise (_type_error_response "dict variable"
                          "Config.__init__() got an unexpected keyword argument 'extra'"),
                 initial)) by (vm_compute; reflexivity).
  split; [exact H|].
  destruct (dict_operations_never_raise_TypeError Config 0%nat (dictv x_8080_extra) initial)
    as [Hl _].
  exact (Hl _ _ H).
Defined.

(** X7: a file whose content is not a mapping (an empty document gives
    [None], a sequence gives a list) is refused with a
    [ConfigFileParamError] that has the path, by [from_file] as by
    [reload_from_file], also when the class is already loaded; the heap
    and the registry stay as they were. *)
Theorem file_without_mapping_is_refused
    (isfile : string -> bool) (open_load : string -> result value) k l f v s :
  isfile f = true ->
  open_load f = Ok v ->
  (forall d, v <> VDict d) ->
  (exists msg s',
      from_file isfile open_load k f s = (Raise (Exn ConfigFileParamError msg), s')
      /\ occurs f msg /\ heap s' = heap s /\ instances s' = instances s)
  /\ (exists msg s',
         reload_from_file isfile open_load k l f s = (Raise (Exn ConfigFileParamError msg), s')
         /\ occurs f msg /\ heap s' = heap s /\ instances s' = instances s).
Proof.
  intros Hf Ho Hv. split.
  - unfold from_file. rewrite Hf, Ho. simpl.
    set (s1 := State (heap s) (instances s) (trace s ++ [EvLoad f])).
    assert (Hc : call_with k v s1 = (Raise (not_a_mapping k v), s1)).
    { unfold call_with, unpack. destruct v; try reflexivity. exfalso. eapply Hv. reflexivity. }
    rewrite (try_except_Raise _ _ _ _ _ Hc). simpl.
    eexists _, s1. split; [reflexivity|].
    destruct (type_error_response_says f
                (call_name k +:+ "() argument after ** must be a mapping, not "
                 +:+ type_name v))
      as (_ & _ & Hocc).
    split; [exact Hocc|]. split; reflexivity.
  - unfold reload_from_file. rewrite Hf, Ho. simpl.
    set (s1 := State (heap s) (instances s) (trace s ++ [EvLoad f])).
    assert (Hc : exists m, init_with k l v s1 = (Raise (type_error m), s1)).
    { unfold init_with, unpack. destruct v; try (eexists; reflexivity).
      exfalso. eapply Hv. reflexivity. }
    destruct Hc as [m Hc]. rewrite (try_except_Raise _ _ _ _ _ Hc). simpl.
    eexists _, s1. split; [reflexivity|].
    destruct (type_error_response_says f m) as (_ & _ & Hocc).
    split; [exact Hocc|]. split; reflexivity.
Qed.

Lemma file_without_mapping_witness :
  (fun _ : string => true) "empty.yml"%string = true
  /\ (fun _ : string => Ok VNone) "empty.yml"%string = Ok VNone
  /\ (forall d, VNone <> VDict d)
  /\ exists msg s',
      from_file (fun _ => true) (fun _ => Ok VNone) Config "empty.yml" loaded
      = (Raise (Exn ConfigFileParamError msg), s')
      /\ occurs "empty.yml" msg /\ heap s' = heap loaded /\ instances s' = instances loaded.
Proof.
  assert (Hv : forall d, VNone <> VDict d) by (intros d; discriminate).
  split; [reflexivity|]. split; [reflexivity|]. split; [exact Hv|].
  destruct (file_without_mapping_is_refused (fun _ => true) (fun _ => Ok VNone)
              Config 0%nat "empty.yml" VNone loaded eq_refl eq_refl Hv) as [H _].
  exact H.
Defined.



(** ** Dictionaries *)

Lemma get_None (d : dict) : forall a, get a d = None <-> ~ In a (keys d).
Proof.
  induction d as [|[k0 v0] d IH]; intros a; simpl.
  - split; [intros _ []|reflexivity].
  - destruct (String.eqb_spec a k0) as [->|Hne].
    + split; [discriminate|]. intros H. exfalso. apply H. left. reflexivity.
    + rewrite IH. split.
      * intros H [Heq|Hin]; [congruence|contradiction].
      * intros H Hin. apply H. right. exact Hin.
Qed.

Lemma add_key_app l a : exists extra, add_key l a = l ++ extra.
Proof.
  unfold add_key. destruct (mem a l); [exists []|exists [a]]; [|reflexivity].
  symmetry. apply app_nil_r.
Qed.

Lemma add_key_present l a : In a l -> add_key l a = l.
Proof. intros H. unfold add_key. apply mem_In in H. rewrite H. reflexivity. Qed.

Lemma In_add_key l a x : In x l \/ x = a -> In x (add_key l a).
Proof.
  unfold add_key. intros [H| ->].
  - destruct (mem a l); [exact H|]. apply in_or_app. left. exact H.
  - destruct (mem a l) eqn:Hm; [apply mem_In, Hm|]. apply in_or_app. right. left. reflexivity.
Qed.

Lemma NoDup_add_key l a : NoDup l -> NoDup (add_key l a).
Proof.
  intros H. unfold add_key. destruct (mem a l) eqn:Hm; [exact H|].
  apply mem_false in Hm. apply NoDup_app. split; [exact H|]. split.
  - intros x Hx Hxa. apply list_elem_of_In in Hx. apply list_elem_of_In in Hxa.
    destruct Hxa as [<-|[]]. contradiction.
  - apply NoDup_singleton.
Qed.

Lemma In_fold_add_key ks : forall l x, In x l \/ In x ks -> In x (fold_left add_key ks l).
Proof.
  induction ks as [|a ks IH]; intros l x; simpl.
  - intros [H|[]]. exact H.
  - intros [H|[<-|H]]; apply IH.
    + left. apply In_add_key. left. exact H.
    + left. apply In_add_key. right. reflexivity.
    + right. exact H.
Qed.

Lemma NoDup_fold_add_key ks :
  forall l, NoDup l -> NoDup (fold_left add_key ks l).
Proof.
  induction ks as [|a ks IH]; intros l H; simpl; [exact H|].
  apply IH, NoDup_add_key, H.
Qed.

Lemma fold_add_key_present ks :
  forall l, (forall a, In a ks -> In a l) -> fold_left add_key ks l = l.
Proof.
  induction ks as [|a ks IH]; intros l H; simpl; [reflexivity|].
  rewrite add_key_present by (apply H; left; reflexivity).
  apply IH. intros x Hx. apply H. right. exact Hx.
Qed.

(** Two dictionaries with the same keys in the same order, none twice, and
    the same value under each key are the same dictionary. *)
Lemma dict_ext (d : dict) :
  forall d' : dict,
    NoDup (keys d) -> keys d = keys d' ->
    (forall a, get a d = get a d') -> d = d'.
Proof.
  induction d as [|[k0 v0] d IH]; intros [|[k1 v1] d'] Hnd Hk Hg; simpl in Hk;
    try discriminate; [reflexivity|].
  injection Hk as <- Hk. apply NoDup_cons in Hnd as [Hnot Hnd].
  rewrite list_elem_of_In in Hnot.
  pose proof (Hg k0) as H0. simpl in H0. rewrite String.eqb_refl in H0.
  injection H0 as <-. f_equal. apply IH; [exact Hnd|exact Hk|].
  intros a. destruct (String.eqb_spec a k0) as [->|Hne].
  - assert (Hn : get k0 d = None) by (apply get_None; exact Hnot).
    rewrite Hn. symmetry. apply get_None. rewrite <- Hk. exact Hnot.
  - specialize (Hg a). simpl in Hg.
    destruct (String.eqb_spec a k0); [contradiction|exact Hg].
Qed.

Lemma exec_body_keys env b :
  forall d, exists extra, keys (fst (exec_body env b d)) = keys d ++ extra.
Proof.
  induction b as [|[a e] b IH]; intros d; simpl.
  - exists []. symmetry. apply app_nil_r.
  - destruct (eval env e) as [v|x].
    + destruct (IH (set a v d)) as [extra ->]. rewrite keys_set.
      destruct (add_key_app (keys d) a) as [extra0 ->].
      exists (extra0 ++ extra). symmetry. apply app_assoc.
    + exists []. symmetry. apply app_nil_r.
Qed.

Lemma exec_body_app env b1 b2 d :
  exec_body env (b1 ++ b2) d =
  match exec_body env b1 d with
  | (d1, None) => exec_body env b2 d1
  | r => r
  end.
Proof.
  revert d. induction b1 as [|[a e] b1 IH]; intros d; simpl; [reflexivity|].
  destruct (eval env e) as [v|x]; [apply IH|reflexivity].
Qed.

(** ** Reloading again *)

(** What [self.__init__] does to an instance, when the mapping is one the
    constructor accepts. *)
Lemma init_accepted k l o d fresh s :
  heap s !! l = Some o ->
  new k d = Ok (VObj (k_name k) fresh) ->
  exists dd,
    init k l d s
    = (Ok tt, State (<[l := Obj (o_class o) dd]> (heap s)) (instances s)
                    (trace s ++ [EvInit (cid k)]))
    /\ (forall a, get a dd
                  = match get a fresh with Some v => Some v | None => get a (o_dict o) end)
    /\ keys dd = fold_left add_key (keys (k_body k)) (keys (o_dict o))
    /\ keys fresh = fold_left add_key (keys (k_body k)) [].
Proof.
  intros Ho Hn. apply new_Ok_inv in Hn as (fresh' & [= <-] & Hb & He).
  destruct (exec_body (bound (k_params k) d) (k_body k) (o_dict o)) as [dd r] eqn:Hd.
  destruct (exec_body_over _ _ (o_dict o) _ _ _ _ _ _ Hd He) as [-> Hget].
  { intros a. reflexivity. }
  exists dd. split; [|split; [exact Hget|split]].
  - unfold init. rewrite Hb, Ho, Hd. reflexivity.
  - apply keys_exec_body in Hd. exact Hd.
  - apply keys_exec_body in He. exact He.
Qed.

(** Reloading an instance that already holds what the constructor builds
    from the mapping leaves the heap as it is. *)
Lemma reload_of_held_fields k l o d fresh s :
  heap s !! l = Some o ->
  NoDup (keys (o_dict o)) ->
  new k d = Ok (VObj (k_name k) fresh) ->
  (forall a v, get a fresh = Some v -> get a (o_dict o) = Some v) ->
  reload_from_dict k l (dictv d) s
  = (Ok tt, State (heap s) (instances s) (trace s ++ [EvInit (cid k)])).
Proof.
  intros Ho Hnd Hn Hheld.
  destruct (init_accepted k l o d fresh s Ho Hn) as (dd & Hi & Hget & Hk & Hkf).
  assert (Hdd : dd = o_dict o).
  { symmetry. apply dict_ext; [exact Hnd| |].
    - rewrite Hk. symmetry. apply fold_add_key_present.
      intros a Ha. destruct (get a (o_dict o)) as [v|] eqn:Hg.
      + destruct (get a (o_dict o)) eqn:Hg'; [|discriminate].
        apply Decidable.not_not; [|intros Hnot; apply get_None in Hnot; congruence].
        unfold Decidable.decidable. destruct (in_dec String.string_dec a (keys (o_dict o)));
          auto.
      + exfalso.
        assert (Hin : In a (keys fresh)).
        { rewrite Hkf. apply In_fold_add_key. right. exact Ha. }
        destruct (get a fresh) as [v|] eqn:Hf.
        * rewrite (Hheld _ _ Hf) in Hg. discriminate.
        * apply get_None in Hf. contradiction.
    - intros a. rewrite Hget. destruct (get a fresh) as [v|] eqn:Hf; [|reflexivity].
      apply Hheld, Hf. }
  rewrite (reload_from_dict_kwargs _ _ _ _ _ (kwargs_dictv d)).
  rewrite (try_except_Ok _ _ _ _ _ Hi). f_equal. f_equal.
  rewrite Hdd. apply list_insert_id. rewrite Ho. destruct o; reflexivity.
Qed.

(** X8: for a class whose constructor only stores its parameters,
    reloading twice from the same accepted mapping is reloading once: the
    second reload returns and leaves the heap and the registry as the
    first one left them, every attribute bound to the value of the mapping
    it was bound to.  (A constructor that builds a nested record builds a
    new one at each reload.) *)
Theorem reload_twice_is_reload_once k l o d fresh s :
  flat k = true ->
  heap s !! l = Some o ->
  NoDup (keys (o_dict o)) ->
  new k d = Ok (VObj (k_name k) fresh) ->
  exists s1 s2,
    reload_from_dict k l (dictv d) s = (Ok tt, s1)
    /\ reload_from_dict k l (dictv d) s1 = (Ok tt, s2)
    /\ heap s2 = heap s1
    /\ instances s2 = instances s1.
Proof.
  intros _ Ho Hnd Hn.
  destruct (init_accepted k l o d fresh s Ho Hn) as (dd & Hi & Hget & Hk & _).
  assert (Hlt : (l < length (heap s))%nat) by (eapply lookup_lt_Some, Ho).
  set (s1 := State (<[l := Obj (o_class o) dd]> (heap s)) (instances s)
                   (trace s ++ [EvInit (cid k)])).
  assert (Ho1 : heap s1 !! l = Some (Obj (o_class o) dd))
    by (apply list_lookup_insert_eq; exact Hlt).
  exists s1, (State (heap s1) (instances s1) (trace s1 ++ [EvInit (cid k)])).
  split.
  { rewrite (reload_from_dict_kwargs _ _ _ _ _ (kwargs_dictv d)).
    apply try_except_Ok. exact Hi. }
  split; [|split; reflexivity].
  apply (reload_of_held_fields k l (Obj (o_class o) dd) d fresh s1 Ho1); [|exact Hn|].
  - simpl. rewrite Hk. apply NoDup_fold_add_key, Hnd.
  - intros a v Ha. simpl. rewrite Hget, Ha. reflexivity.
Qed.

Lemma reload_twice_witness :
  flat Config = true
  /\ heap loaded !! 0%nat = Some (Obj (cid Config) (bound (k_params Config) x_8080))
  /\ NoDup (keys (bound (k_params Config) x_8080))
  /\ new Config y_1_5 = Ok (VObj (k_name Config) y_1_5)
  /\ exists s1 s2,
      reload_from_dict Config 0%nat (dictv y_1_5) loaded = (Ok tt, s1)
      /\ reload_from_dict Config 0%nat (dictv y_1_5) s1 = (Ok tt, s2)
      /\ heap s2 = heap s1
      /\ instances s2 = instances s1.
Proof.
  assert (Hnd : NoDup (keys (bound (k_params Config) x_8080))).
  { simpl. repeat (apply NoDup_cons; split; [rewrite list_elem_of_In; simpl; intuition congruence|]).
    apply NoDup_nil_2. }
  split; [reflexivity|]. split; [reflexivity|]. split; [exact Hnd|]. split; [reflexivity|].
  exact (reload_twice_is_reload_once Config 0%nat
           (Obj (cid Config) (bound (k_params Config) x_8080)) y_1_5 y_1_5 loaded
           eq_refl eq_refl Hnd eq_refl).
Defined.

(** X9: for a class whose constructor only stores its parameters, right
    after the first load of the class from a mapping, reloading the
    instance from that same mapping returns and leaves the heap and the
    registry as they are. *)
Theorem reload_with_the_loaded_mapping_changes_nothing k v s l s1 :
  flat k = true ->
  instances s !! cid k = None ->
  load_from_dict k v s = (Ok l, s1) ->
  exists s2,
    reload_from_dict k l v s1 = (Ok tt, s2)
    /\ heap s2 = heap s1
    /\ instances s2 = instances s1.
Proof.
  intros _ Hl H. destruct (first_load_fields _ _ _ _ _ Hl H) as (d & fresh & Hk & Hn & Ho).
  apply kwargs_Some in Hk. subst v.
  exists (State (heap s1) (instances s1) (trace s1 ++ [EvInit (cid k)])).
  split; [|split; reflexivity].
  apply (reload_of_held_fields k l (Obj (cid k) fresh) d fresh s1 Ho); [|exact Hn|].
  - simpl. rewrite (new_declared_attrs _ _ _ Hn). unfold declared_attrs.
    apply NoDup_fold_add_key, NoDup_nil_2.
  - intros a v Ha. exact Ha.
Qed.

Lemma reload_with_the_loaded_mapping_witness :
  flat Config = true
  /\ instances initial !! cid Config = None
  /\ load_from_dict Config (dictv x_8080) initial = (Ok 0%nat, loaded)
  /\ exists s2,
      reload_from_dict Config 0%nat (dictv x_8080) loaded = (Ok tt, s2)
      /\ heap s2 = heap loaded
      /\ instances s2 = instances loaded.
Proof.
  assert (H : load_from_dict Config (dictv x_8080) initial = (Ok 0%nat, loaded))
    by (vm_compute; reflexivity).
  split; [reflexivity|]. split; [reflexivity|]. split; [exact H|].
  exact (reload_with_the_loaded_mapping_changes_nothing Config (dictv x_8080) initial 0%nat
           loaded eq_refl eq_refl H).
Defined.

(** ** A reload that fails in the body *)

(** X10: once the keywords are bound, a reload is not all or nothing:
    when the body of [__init__] has run the assignments [b1] and the next
    right-hand side raises, the instance keeps what [b1] assigned, and the
    exception comes out (as a [ConfigFileParamError] if it was a
    [TypeError]). *)
Theorem reload_keeps_what_was_assigned_before_the_failure
    k l o d env b1 a e b2 d1 x s :
  heap s !! l = Some o ->
  bind_args (init_name k) (k_params k) d = Ok env ->
  k_body k = b1 ++ (a, e) :: b2 ->
  exec_body env b1 (o_dict o) = (d1, None) ->
  eval env e = Raise x ->
  reload_from_dict k l (dictv d) s
  = (Raise (translated "dict variable" x),
     State (<[l := Obj (o_class o) d1]> (heap s)) (instances s)
           (trace s ++ [EvInit (cid k)])).
Proof.
  intros Ho Hb Hbody H1 He.
  rewrite (reload_from_dict_kwargs _ _ _ _ _ (kwargs_dictv d)). apply try_except_Raise.
  unfold init. rewrite Hb, Ho, Hbody, exec_body_app, H1. simpl. rewrite He. reflexivity.
Qed.

Lemma reload_failure_witness :
  let d := [("param1", VInt 7); ("param2", VStr "b"); ("subconf", VInt 5)] in
  let o := Obj (cid ConfigurationData)
               [("param1", VInt 1); ("param2", VStr "a"); ("subconf", VNone)] in
  let s := State [o] {[ cid ConfigurationData := 0%nat ]} [] in
  heap s !! 0%nat = Some o
  /\ bind_args (init_name ConfigurationData) (k_params ConfigurationData) d = Ok d
  /\ k_body ConfigurationData
     = [("param1", EParam "param1"); ("param2", EParam "param2")]
       ++ ("subconf", ENew _SubConfig "subconf") :: []
  /\ exec_body d [("param1", EParam "param1"); ("param2", EParam "param2")] (o_dict o)
     = ([("param1", VInt 7); ("param2", VStr "b"); ("subconf", VNone)], None)
  /\ eval d (ENew _SubConfig "subconf") = Raise (not_a_mapping _SubConfig (VInt 5))
  /\ reload_from_dict ConfigurationData 0%nat (dictv d) s
     = (Raise (translated "dict variable" (not_a_mapping _SubConfig (VInt 5))),
        State (<[0%nat := Obj (o_class o)
                               [("param1", VInt 7); ("param2", VStr "b"); ("subconf", VNone)]]>
                 (heap s))
              (instances s) (trace s ++ [EvInit (cid ConfigurationData)])).
Proof.
  intros d o s.
  split; [reflexivity|]. split; [reflexivity|]. split; [reflexivity|].
  split; [reflexivity|]. split; [reflexivity|].
  exact (reload_keeps_what_was_assigned_before_the_failure
           ConfigurationData 0%nat o d d
           [("param1", EParam "param1"); ("param2", EParam "param2")]
           "subconf" (ENew _SubConfig "subconf") []
           [("param1", VInt 7); ("param2", VStr "b"); ("subconf", VNone)]
           (not_a_mapping _SubConfig (VInt 5)) s
           eq_refl eq_refl eq_refl eq_refl eq_refl).
Defined.

(** ** The order of the fields *)

Section Order.

Variable isfile : string -> bool.
Variable open_load : string -> result value.

(** X11: whatever a reload does, and whether it returns or raises, the
    instance stays at its place with its class, no field is removed and
    none changes position: the names of its fields before are the first
    names of its fields after, in the same order. *)
Theorem reload_keeps_class_and_field_order k l src s o :
  heap s !! l = Some o ->
  exists o' extra,
    heap (snd (reload isfile open_load k l src s)) !! l = Some o'
    /\ o_class o' = o_class o
    /\ keys (o_dict o') = keys (o_dict o) ++ extra.
Proof.
  intros Ho.
  destruct (reload isfile open_load k l src s) as [r s'] eqn:Hr. simpl.
  apply reload_outcome in Hr as [_ [->|(o0 & d & env & Ho0 & _ & _ & ->)]].
  - exists o, []. split; [exact Ho|]. split; [reflexivity|]. symmetry. apply app_nil_r.
  - rewrite Ho in Ho0. injection Ho0 as <-.
    destruct (exec_body_keys env (k_body k) (o_dict o)) as [extra Hk].
    exists (Obj (o_class o) (fst (exec_body env (k_body k) (o_dict o)))), extra.
    split; [|split; [reflexivity|exact Hk]].
    apply list_lookup_insert_eq. eapply lookup_lt_Some, Ho.
Qed.

End Order.

Lemma reload_order_witness :
  heap loaded !! 0%nat = Some (Obj (cid Config) (bound (k_params Config) x_8080))
  /\ exists o' extra,
      heap (snd (reload (fun _ => false) (fun _ => Ok VNone) Config 0%nat
                        (FromDict (dictv y_1_5)) loaded)) !! 0%nat = Some o'
      /\ o_class o' = cid Config
      /\ keys (o_dict o') = keys (bound (k_params Config) x_8080) ++ extra.
Proof.
  split; [reflexivity|].
  exact (reload_keeps_class_and_field_order (fun _ => false) (fun _ => Ok VNone)
           Config 0%nat (FromDict (dictv y_1_5)) loaded _ eq_refl).
Defined.

End ConfigToolsExtra.

(** * Further properties of [scheduler.py] *)

Module SchedulerExtra.
Import Scheduler SchedulerSpec.

(** X12: when the clock has moved forward by less than a day during the
    run, the turn ends with the call of [sleep] for the period less the
    whole seconds the run took, or for zero when that is below zero, made
    at the time the function returned; and when the period is within
    what [sleep] takes and the operating system accepts the duration, the
    turn returns with the clock moved forward by it. *)
Theorem sleep_is_what_is_left_of_the_period
    (os_refuses : world -> Z -> bool) minutes func w w1 :
  func (World (now w) (log w ++ [EvCall])) = (Returned, w1) ->
  0 <= now w1 - now w < seconds_per_day * us_per_second ->
  exists w2,
    turn os_refuses minutes func w
    = sleep os_refuses (Z.max 0 (minutes * 60 - td_total_seconds (now w1 - now w))) w2
    /\ now w2 = now w1
    /\ (minutes * 60 <= max_sleep ->
        os_refuses w2 (Z.max 0 (minutes * 60 - td_total_seconds (now w1 - now w))) = false ->
        turn os_refuses minutes func w
        = (Returned,
           World (now w1
                  + Z.max 0 (minutes * 60 - td_total_seconds (now w1 - now w)) * us_per_second)
                 (log w2
                  ++ [EvSleep (Z.max 0 (minutes * 60 - td_total_seconds (now w1 - now w)))]))).
Proof.
  intros Hf Hd.
  destruct (turn_sleeps os_refuses minutes func w w1 Hf) as (wait & w2 & Ht & -> & _ & Hn & _).
  pose proof (td_seconds_range (now w1 - now w)) as Hr.
  exists w2. rewrite Ht, <- (td_seconds_within_a_day _ Hd). split; [reflexivity|].
  split; [exact Hn|]. intros Hmax Hos.
  rewrite sleep_accepted, Hn; [reflexivity|unfold max_sleep in *; lia|exact Hos].
Qed.

Lemma sleep_is_what_is_left_witness :
  lasting 42500000 (World (now (World 0 [])) (log (World 0 []) ++ [EvCall]))
  = (Returned, World 42500000 [EvCall])
  /\ 0 <= now (World 42500000 [EvCall]) - now (World 0 [])
        < seconds_per_day * us_per_second
  /\ exists w2,
      turn never_refuses 5 (lasting 42500000) (World 0 [])
      = sleep never_refuses
          (Z.max 0 (5 * 60 - td_total_seconds
                               (now (World 42500000 [EvCall]) - now (World 0 [])))) w2
      /\ now w2 = now (World 42500000 [EvCall])
      /\ (5 * 60 <= max_sleep ->
          never_refuses w2
            (Z.max 0 (5 * 60 - td_total_seconds
                                 (now (World 42500000 [EvCall]) - now (World 0 [])))) = false ->
          turn never_refuses 5 (lasting 42500000) (World 0 [])
          = (Returned,
             World (now (World 42500000 [EvCall])
                    + Z.max 0 (5 * 60 - td_total_seconds
                                          (now (World 42500000 [EvCall]) - now (World 0 [])))
                      * us_per_second)
                   (log w2
                    ++ [EvSleep
                          (Z.max 0 (5 * 60 - td_total_seconds
                                               (now (World 42500000 [EvCall])
                                                - now (World 0 []))))]))).
Proof.
  assert (Hd : 0 <= now (World 42500000 [EvCall]) - now (World 0 [])
               < seconds_per_day * us_per_second) by (vm_compute; split; congruence).
  split; [reflexivity|]. split; [exact Hd|].
  exact (sleep_is_what_is_left_of_the_period never_refuses 5 (lasting 42500000) (World 0 [])
           (World 42500000 [EvCall]) eq_refl Hd).
Defined.

Lemma Forall_snoc {A} (P : A -> Prop) l x : List.Forall P l -> P x -> List.Forall P (l ++ [x]).
Proof. intros Hl Hx. apply List.Forall_app. split; [exact Hl|]. constructor; [exact Hx|constructor]. Qed.

Lemma turn_sleeps_bounded os minutes func w :
  (forall w0, List.Forall (sleep_within (Z.max 0 (minutes * 60))) (log w0) ->
              List.Forall (sleep_within (Z.max 0 (minutes * 60))) (log (snd (func w0)))) ->
  List.Forall (sleep_within (Z.max 0 (minutes * 60))) (log w) ->
  List.Forall (sleep_within (Z.max 0 (minutes * 60))) (log (snd (turn os minutes func w))).
Proof.
  intros Hf Hw.
  assert (H0 : List.Forall (sleep_within (Z.max 0 (minutes * 60)))
                 (log (World (now w) (log w ++ [EvCall]))))
    by (simpl; apply Forall_snoc; [exact Hw|exact I]).
  specialize (Hf _ H0).
  destruct (func (World (now w) (log w ++ [EvCall]))) as [[|e] w1] eqn:Hfw.
  - pose proof (td_seconds_range (now w1 - now w)) as Hr.
    unfold turn. rewrite Hfw. simpl in Hf. rewrite sleep_log.
    set (time_left := minutes * 60 - td_seconds (now w1 - now w)) in *.
    destruct (Z.gtb_spec time_left 0) as [Hgt|Hle].
    + destruct (Z.eqb_spec time_left 0) as [H00|_]; simpl.
      * apply Forall_snoc; [exact Hf|]. simpl. lia.
      * apply Forall_snoc; [apply Forall_snoc; [exact Hf|exact I]|]. simpl. lia.
    + simpl. apply Forall_snoc; [exact Hf|]. simpl. lia.
  - unfold turn. rewrite Hfw. exact Hf.
Qed.

Lemma inner_sleeps_bounded os minutes func :
  (forall w0, List.Forall (sleep_within (Z.max 0 (minutes * 60))) (log w0) ->
              List.Forall (sleep_within (Z.max 0 (minutes * 60))) (log (snd (func w0)))) ->
  forall n w,
    List.Forall (sleep_within (Z.max 0 (minutes * 60))) (log w) ->
    List.Forall (sleep_within (Z.max 0 (minutes * 60)))
                (log (snd (inner os minutes func n w))).
Proof.
  intros Hf n. induction n as [|n IH]; intros w Hw; simpl; [exact Hw|].
  pose proof (turn_sleeps_bounded os minutes func w Hf Hw) as Ht.
  destruct (turn os minutes func w) as [[|e] w1]; simpl in Ht; [apply IH; exact Ht|exact Ht].
Qed.

(** X13: however long the runs take and however the clock jumps, every
    call of [sleep] by the loop is for a duration between 0 seconds and
    the period (0 when the period is negative), as long as the function
    itself adds no sleep outside that range. *)
Theorem loop_sleeps_between_zero_and_the_period
    (os_refuses : world -> Z -> bool) minutes func n w :
  (forall w0, List.Forall (sleep_within (Z.max 0 (minutes * 60))) (log w0) ->
              List.Forall (sleep_within (Z.max 0 (minutes * 60))) (log (snd (func w0)))) ->
  List.Forall (sleep_within (Z.max 0 (minutes * 60))) (log w) ->
  List.Forall (sleep_within (Z.max 0 (minutes * 60)))
              (log (snd (schedule_every os_refuses minutes func n w))).
Proof. intros Hf Hw. apply inner_sleeps_bounded; assumption. Qed.

Lemma lasting_keeps_sleeps hi d w0 :
  List.Forall (sleep_within hi) (log w0) ->
  List.Forall (sleep_within hi) (log (snd (lasting d w0))).
Proof. intros H. exact H. Qed.

Lemma loop_sleeps_witness :
  (forall w0, List.Forall (sleep_within (Z.max 0 (5 * 60))) (log w0) ->
              List.Forall (sleep_within (Z.max 0 (5 * 60)))
                          (log (snd (lasting (86410 * us_per_second) w0))))
  /\ List.Forall (sleep_within (Z.max 0 (5 * 60))) (log (World 0 []))
  /\ List.Forall (sleep_within (Z.max 0 (5 * 60)))
       (log (snd (schedule_every never_refuses 5 (lasting (86410 * us_per_second)) 3
                                 (World 0 [])))).
Proof.
  assert (Hf : forall w0, List.Forall (sleep_within (Z.max 0 (5 * 60))) (log w0) ->
                          List.Forall (sleep_within (Z.max 0 (5 * 60)))
                                      (log (snd (lasting (86410 * us_per_second) w0))))
    by (intros w0; apply lasting_keeps_sleeps).
  assert (H0 : List.Forall (sleep_within (Z.max 0 (5 * 60))) (log (World 0 [])))
    by constructor.
  split; [exact Hf|]. split; [exact H0|].
  exact (loop_sleeps_between_zero_and_the_period never_refuses 5 _ 3 (World 0 []) Hf H0).
Defined.




Lemma count_app p l1 l2 : count p (l1 ++ l2) = (count p l1 + count p l2)%nat.
Proof. unfold count. rewrite List.filter_app, length_app. reflexivity. Qed.

Lemma turn_of_quiet os minutes func w :
  quiet func ->
  minutes * 60 <= max_sleep ->
  (forall w0 z, 0 <= z <= Z.max 0 (minutes * 60) -> os w0 z = false) ->
  exists added w',
    turn os minutes func w = (Returned, w')
    /\ log w' = log w ++ added
    /\ count is_call added = 1%nat
    /\ count is_sleep added = 1%nat.
Proof.
  intros Hq Hmax Hos. destruct (Hq (World (now w) (log w ++ [EvCall]))) as [Hr Hl].
  destruct (func (World (now w) (log w ++ [EvCall]))) as [[|e] w1] eqn:Hf; simpl in Hr, Hl;
    [|discriminate].
  destruct (turn_sleeps os minutes func w w1 Hf)
    as (wait & w2 & -> & Hw & Hpos & _ & added & Hlog & Hns & Hnc).
  pose proof (td_seconds_range (now w1 - now w)) as Hrange.
  rewrite sleep_accepted; [|unfold max_sleep in *; lia|apply Hos; lia].
  exists (EvCall :: added ++ [EvSleep wait]). eexists. split; [reflexivity|].
  split; [simpl; rewrite Hlog, Hl, <- !app_assoc; reflexivity|].
  unfold count in *. simpl. rewrite !List.filter_app, Hns, Hnc. split; reflexivity.
Qed.

(** X15: with a function that returns and leaves the log alone, a period
    within what [sleep] takes and an operating system that accepts every
    duration from zero to the period, [n] turns of the loop are [n] calls of the
    function and [n] sleeps, and the loop is still running: no number of
    turns ends it. *)
Theorem n_turns_are_n_calls_and_n_sleeps
    (os_refuses : world -> Z -> bool) minutes func n w :
  quiet func ->
  minutes * 60 <= max_sleep ->
  (forall w0 z, 0 <= z <= Z.max 0 (minutes * 60) -> os_refuses w0 z = false) ->
  exists added w',
    schedule_every os_refuses minutes func n w = (None, w')
    /\ log w' = log w ++ added
    /\ count is_call added = n
    /\ count is_sleep added = n.
Proof.
  intros Hq Hmax Hos. unfold schedule_every. revert w.
  induction n as [|n IH]; intros w; simpl.
  - exists [], w. split; [reflexivity|]. split; [symmetry; apply app_nil_r|]. auto.
  - destruct (turn_of_quiet os_refuses minutes func w Hq Hmax Hos)
      as (a1 & w1 & Ht & Hl1 & Hc1 & Hs1).
    rewrite Ht. destruct (IH w1) as (a2 & w2 & Hi & Hl2 & Hc2 & Hs2).
    exists (a1 ++ a2), w2. split; [exact Hi|]. split.
    + rewrite Hl2, Hl1. symmetry. apply app_assoc.
    + rewrite !count_app, Hc1, Hs1, Hc2, Hs2. auto.
Qed.

Lemma lasting_quiet d : quiet (lasting d).
Proof. intros w. split; reflexivity. Qed.

Lemma n_turns_witness :
  quiet (lasting 1000000)
  /\ 5 * 60 <= max_sleep
  /\ (forall w0 z, 0 <= z <= Z.max 0 (5 * 60) -> never_refuses w0 z = false)
  /\ exists added w',
      schedule_every never_refuses 5 (lasting 1000000) 4 (World 0 []) = (None, w')
      /\ log w' = log (World 0 []) ++ added
      /\ count is_call added = 4%nat
      /\ count is_sleep added = 4%nat.
Proof.
  assert (Hmax : 5 * 60 <= max_sleep) by (vm_compute; discriminate).
  assert (Hos : forall w0 z, 0 <= z <= Z.max 0 (5 * 60) -> never_refuses w0 z = false)
    by (intros w0 z _; reflexivity).
  split; [apply lasting_quiet|]. split; [exact Hmax|]. split; [exact Hos|].
  exact (n_turns_are_n_calls_and_n_sleeps never_refuses 5 (lasting 1000000) 4 (World 0 [])
           (lasting_quiet 1000000) Hmax Hos).
Defined.

(** X16: under [schedule_every_five_minutes] no call of [sleep] by the
    loop is for more than 300 seconds or less than 0, as long as the
    function itself adds no sleep outside that range. *)
Theorem five_minutes_sleeps_at_most_300_seconds
    (os_refuses : world -> Z -> bool) func n w :
  (forall w0, List.Forall (sleep_within 300) (log w0) ->
              List.Forall (sleep_within 300) (log (snd (func w0)))) ->
  List.Forall (sleep_within 300) (log w) ->
  List.Forall (sleep_within 300)
              (log (snd (schedule_every_five_minutes os_refuses func n w))).
Proof.
  intros Hf Hw. exact (inner_sleeps_bounded os_refuses 5 func Hf n w Hw).
Qed.

Lemma five_minutes_witness :
  (forall w0, List.Forall (sleep_within 300) (log w0) ->
              List.Forall (sleep_within 300) (log (snd (lasting 1000000 w0))))
  /\ List.Forall (sleep_within 300) (log (World 0 []))
  /\ List.Forall (sleep_within 300)
       (log (snd (schedule_every_five_minutes never_refuses (lasting 1000000) 2 (World 0 [])))).
Proof.
  assert (Hf : forall w0, List.Forall (sleep_within 300) (log w0) ->
                          List.Forall (sleep_within 300) (log (snd (lasting 1000000 w0))))
    by (intros w0; apply lasting_keeps_sleeps).
  assert (H0 : List.Forall (sleep_within 300) (log (World 0 []))) by constructor.
  split; [exact Hf|]. split; [exact H0|].
  exact (five_minutes_sleeps_at_most_300_seconds never_refuses _ 2 (World 0 []) Hf H0).
Defined.




End SchedulerExtra.

(** * Properties of [logger.py] *)

Module LoggerSpec.
Import Logger.

Set Warnings "-clear-no-such-hyp".

(** X17: after a call that returns on a root logger without handlers, a
    record is written on the console exactly when its level is above 0
    and reaches [log_level]; it is written to a file exactly when a
    non-empty path was given, and its level is above 0 and reaches both
    [log_level] and [DEBUG]. *)
Theorem records_reach_console_and_file
    (can_open : string -> bool) log_level file_log_path r r' level :
  r_handlers r = [] ->
  init_global_logger can_open log_level file_log_path r = (r', None) ->
  (In Console (delivered r' level) <-> 0 < level /\ log_level <= level)
  /\ (forall p, In (File p) (delivered r' level)
                <-> truthy file_log_path = Some p
                    /\ 0 < level /\ log_level <= level /\ DEBUG <= level).
Proof.
  intros Hr. unfold init_global_logger. rewrite Hr. simpl.
  destruct (truthy file_log_path) as [p0|].
  - destruct (can_open p0); [|discriminate]. intros [= <-].
    unfold delivered, enabled. simpl.
    destruct (Z.ltb_spec 0 level) as [H0|H0], (Z.leb_spec log_level level) as [H1|H1],
      (Z.leb_spec DEBUG level) as [H2|H2]; simpl; (split; [|intros p]); naive_solver lia.
  - intros [= <-]. unfold delivered, enabled. simpl.
    destruct (Z.ltb_spec 0 level) as [H0|H0], (Z.leb_spec log_level level) as [H1|H1];
      simpl; (split; [|intros p]); naive_solver lia.
Qed.

Lemma records_reach_witness :
  r_handlers unconfigured = []
  /\ init_global_logger (fun _ => true) 5 (Some "app.log"%string) unconfigured
     = (Root 5 [Handler (File "app.log") DEBUG format; Handler Console 5 format], None)
  /\ (In Console
         (delivered (Root 5 [Handler (File "app.log") DEBUG format; Handler Console 5 format]) 7)
      <-> 0 < 7 /\ 5 <= 7)
  /\ (forall p,
         In (File p)
            (delivered (Root 5 [Handler (File "app.log") DEBUG format; Handler Console 5 format])
                       7)
         <-> truthy (Some "app.log"%string) = Some p /\ 0 < 7 /\ 5 <= 7 /\ DEBUG <= 7).
Proof.
  split; [reflexivity|]. split; [reflexivity|].
  exact (records_reach_console_and_file (fun _ => true) 5 (Some "app.log"%string)
           unconfigured _ 7 eq_refl eq_refl).
Defined.

Lemma init_times_console (can_open : string -> bool) log_level n :
  forall r,
    init_times can_open (S n) log_level None r
    = Root log_level (r_handlers r ++ repeat (Handler Console log_level format) (S n)).
Proof.
  induction n as [|n IH]; intros r; [reflexivity|].
  change (init_times can_open (S (S n)) log_level None r)
    with (init_times can_open (S n) log_level None
            (Root log_level (r_handlers r ++ [Handler Console log_level format]))).
  rewrite IH. simpl r_handlers. rewrite <- app_assoc. reflexivity.
Qed.

Lemma delivered_by_consoles log_level level n :
  log_level <= level ->
  map h_target
      (List.filter (fun h => h_level h <=? level) (repeat (Handler Console log_level format) n))
  = repeat Console n.
Proof.
  intros H. induction n as [|n IH]; simpl; [reflexivity|].
  destruct (Z.leb_spec log_level level) as [_|Hlt]; [|lia]. simpl. rewrite IH. reflexivity.
Qed.

(** X18: the function adds handlers and removes none, so calling it again
    repeats the output: after [n] calls without a file path on a root
    logger without handlers ([n] at least 1), a record whose level is
    above 0 and reaches [log_level] is written [n] times on the console. *)
Theorem each_call_adds_one_more_copy (can_open : string -> bool) log_level r level n :
  r_handlers r = [] ->
  0 < level ->
  log_level <= level ->
  delivered (init_times can_open (S n) log_level None r) level = repeat Console (S n).
Proof.
  intros Hr H0 H1. rewrite init_times_console, Hr. unfold delivered, enabled.
  simpl r_level. simpl r_handlers.
  destruct (Z.ltb_spec 0 level) as [_|Hn]; [|lia].
  destruct (Z.leb_spec log_level level) as [_|Hn]; [|lia]. simpl andb. cbv iota.
  change ([] ++ repeat (Handler Console log_level format) (S n))
    with (Handler Console log_level format :: repeat (Handler Console log_level format) n).
  change (Handler Console log_level format :: repeat (Handler Console log_level format) n)
    with (repeat (Handler Console log_level format) (S n)).
  rewrite (delivered_by_consoles log_level level (S n) H1). reflexivity.
Qed.

Lemma each_call_witness :
  r_handlers unconfigured = []
  /\ 0 < INFO
  /\ DEBUG <= INFO
  /\ delivered (init_times (fun _ => true) 2 DEBUG None unconfigured) INFO = [Console; Console].
Proof.
  split; [reflexivity|]. split; [reflexivity|]. split; [discriminate|].
  exact (each_call_adds_one_more_copy (fun _ => true) DEBUG unconfigured INFO 1
           eq_refl eq_refl ltac:(discriminate)).
Defined.

Lemma log_after_basicConfig log_level level :
  log level (Root log_level [])
  = (if (0 <? level) && (log_level <=? level) then [Console] else [],
     Root log_level [Handler Console NOTSET BASIC_FORMAT]).
Proof.
  unfold log, basicConfig, delivered, enabled. simpl.
  destruct (Z.ltb_spec 0 level) as [H0|H0]; simpl; [|reflexivity].
  destruct (Z.leb_spec log_level level) as [H1|H1]; simpl; [|reflexivity].
  destruct (Z.leb_spec NOTSET level) as [H2|H2]; [reflexivity|].
  unfold NOTSET in H2. lia.
Qed.

(** X19: when the file cannot be opened, the call raises after setting
    the level and before adding any handler, the console handler
    included.  On a root logger that had no handler, the format of
    [init_global_logger] is then nowhere: a record logged through the
    functions of the module ([logging.info] and the like) makes
    [basicConfig] install its own console handler, and is written on the
    console in the format of the library exactly when its level is above
    0 and reaches [log_level]; a record logged on the root logger itself
    is written by the last-resort handler only, on the console and from
    [WARNING] on. *)
Theorem unopened_file_leaves_no_handler
    (can_open : string -> bool) log_level file_log_path p r :
  truthy file_log_path = Some p ->
  can_open p = false ->
  r_handlers r = [] ->
  exists r',
    init_global_logger can_open log_level file_log_path r = (r', Some "OSError"%string)
    /\ r_level r' = log_level
    /\ r_handlers r' = []
    /\ (forall level,
           log level r'
           = (if (0 <? level) && (log_level <=? level) then [Console] else [],
              Root log_level [Handler Console NOTSET BASIC_FORMAT]))
    /\ (forall level t, In t (delivered r' level) ->
                        t = Console /\ WARNING <= level /\ log_level <= level).
Proof.
  intros Hp Hc Hr. unfold init_global_logger. rewrite Hp, Hc, Hr.
  eexists. split; [reflexivity|]. split; [reflexivity|]. split; [reflexivity|].
  split; [intros level; apply log_after_basicConfig|].
  intros level t. unfold delivered, enabled. simpl.
  destruct (Z.ltb_spec 0 level) as [H0|H0], (Z.leb_spec log_level level) as [H1|H1];
    simpl; try contradiction.
  destruct (Z.leb_spec WARNING level) as [H2|H2]; simpl; [|contradiction].
  intros [<-|[]]. auto.
Qed.

Lemma unopened_file_witness :
  truthy (Some "/nodir/app.log"%string) = Some "/nodir/app.log"%string
  /\ (fun _ : string => false) "/nodir/app.log"%string = false
  /\ r_handlers unconfigured = []
  /\ exists r',
      init_global_logger (fun _ => false) DEBUG (Some "/nodir/app.log"%string) unconfigured
      = (r', Some "OSError"%string)
      /\ r_level r' = DEBUG
      /\ r_handlers r' = []
      /\ (forall level,
             log level r'
             = (if (0 <? level) && (DEBUG <=? level) then [Console] else [],
                Root DEBUG [Handler Console NOTSET BASIC_FORMAT]))
      /\ (forall level t, In t (delivered r' level) ->
                          t = Console /\ WARNING <= level /\ DEBUG <= level).
Proof.
  split; [reflexivity|]. split; [reflexivity|]. split; [reflexivity|].
  exact (unopened_file_leaves_no_handler (fun _ => false) DEBUG
           (Some "/nodir/app.log"%string) "/nodir/app.log" unconfigured
           eq_refl eq_refl eq_refl).
Defined.

End LoggerSpec.
